(** * Gemini Particle Flower: a shallow embedding of the gesture pipeline and
    of the particle engine, with the properties of its specification.

  JavaScript numbers are read as real numbers ([R]): the arithmetic of the
  source is kept operation by operation, IEEE rounding is not modelled.
  [Math.random] and [Date.now] are inputs of the functions that call them.
  Exceptions are explicit: a computation that may throw returns a
  [Js.Completion]. *)

From Stdlib Require Import String Ascii Bool Arith NArith Reals Lra Lia List.
Import ListNotations.

Set Implicit Arguments.

(* ================================================================== *)
(** ** JavaScript completions *)
(* ================================================================== *)

Module Js.

(** A JavaScript string: its UTF-16 code units. *)
Definition jsstring : Type := list N.

(** A string literal of the source. *)
Fixpoint lit (s : string) : jsstring :=
  match s with
  | EmptyString => []
  | String a rest => N_of_ascii a :: lit rest
  end.

Fixpoint eqb (a b : jsstring) : bool :=
  match a, b with
  | [], [] => true
  | c :: a', d :: b' => N.eqb c d && eqb a' b'
  | _, _ => false
  end.

(** [s.startsWith(prefix)] and what follows the prefix. *)
Fixpoint stripPrefix (prefix s : jsstring) : option jsstring :=
  match prefix, s with
  | [], _ => Some s
  | c :: prefix', d :: s' => if N.eqb c d then stripPrefix prefix' s' else None
  | _ :: _, [] => None
  end.

Definition startsWith (s prefix : jsstring) : bool :=
  match stripPrefix prefix s with Some _ => true | None => false end.

(** [s.includes(needle)] *)
Fixpoint includes (s needle : jsstring) : bool :=
  startsWith s needle ||
  match s with
  | [] => false
  | _ :: s' => includes s' needle
  end.

(** A thrown value, as far as the program inspects it: [err.name] and
    [err.message]. *)
Record Error : Type := mkError { name : jsstring; message : jsstring }.

Inductive Completion (A : Type) : Type :=
| Normal (a : A)
| Throw (e : Error).

Arguments Normal {A} a.
Arguments Throw {A} e.

Definition bind {A B : Type} (c : Completion A) (k : A -> Completion B)
  : Completion B :=
  match c with
  | Normal a => k a
  | Throw e => Throw e
  end.

(** [try { body } catch (e) { handler e }] *)
Definition try_catch {A : Type} (body : Completion A)
    (handler : Error -> Completion A) : Completion A :=
  match body with
  | Normal a => Normal a
  | Throw e => handler e
  end.

Definition IndexSizeError : Error :=
  mkError (lit "IndexSizeError") (lit "The radius provided is negative.").

Definition TypeError (msg : string) : Error :=
  mkError (lit "TypeError") (lit msg).

Definition SyntaxError (msg : string) : Error :=
  mkError (lit "SyntaxError") (lit msg).

(** A runtime value. A number keeps the text it was read from. *)
#[warnings="-register-all"]
Inductive Value : Type :=
| undefined
| null
| boolean (b : bool)
| number (lexeme : jsstring)
| str (s : jsstring)
| array (items : list Value)
| object (properties : list (jsstring * Value)).

(** The last binding of [key] among the properties of an object literal:
    a later duplicate overwrites an earlier one. *)
Fixpoint lookup (key : jsstring) (props : list (jsstring * Value))
  : option Value :=
  match props with
  | [] => None
  | (k, v) :: rest =>
      match lookup key rest with
      | Some v' => Some v'
      | None => if eqb k key then Some v else None
      end
  end.

(** [v.key] for a key that no prototype defines: reading a property of
    [null] or [undefined] throws, a primitive or an array has none. *)
Definition getProperty (v : Value) (key : string) : Completion Value :=
  match v with
  | undefined | null =>
      Throw (TypeError "Cannot read properties of null or undefined")
  | object props =>
      Normal (match lookup (lit key) props with
              | Some w => w
              | None => undefined
              end)
  | _ => Normal undefined
  end.

End Js.

Notation "x <- c1 ;; c2" := (Js.bind c1 (fun x => c2))
(at level 61, c1 at next level, right associativity).

(* ================================================================== *)
(** ** [JSON.parse] (ECMA-404), on code units *)
(* ================================================================== *)

Module JSON.

Import Js.
Local Open Scope N_scope.

(** JSON white space: tab, line feed, carriage return, space. *)
Definition isWhitespace (c : N) : bool :=
  (c =? 9) || (c =? 10) || (c =? 13) || (c =? 32).

Fixpoint skipWhitespace (s : jsstring) : jsstring :=
  match s with
  | c :: rest => if isWhitespace c then skipWhitespace rest else s
  | [] => []
  end.

Definition isDigit (c : N) : bool := (48 <=? c) && (c <=? 57).

Definition hexValue (c : N) : option N :=
  if (48 <=? c) && (c <=? 57) then Some (c - 48)
  else if (97 <=? c) && (c <=? 102) then Some (c - 87)
  else if (65 <=? c) && (c <=? 70) then Some (c - 55)
  else None.

(** The longest run of digits at the head of [s], and what follows it. *)
Fixpoint digits (s : jsstring) : jsstring * jsstring :=
  match s with
  | c :: rest =>
      if isDigit c then let (ds, r) := digits rest in (c :: ds, r)
      else ([], s)
  | [] => ([], [])
  end.

(** At least one digit. *)
Definition digits1 (s : jsstring) : option (jsstring * jsstring) :=
  match digits s with
  | ([], _) => None
  | (ds, r) => Some (ds, r)
  end.

(** [int frac? exp?] after an optional minus sign; the result is the text
    of the number and the rest of the input. *)
Definition parseSign (s : jsstring) : jsstring * jsstring :=
  match s with
  | c :: r => if c =? 45 then ([c], r) else ([], s)          (* - *)
  | [] => ([], s)
  end.

Definition parseInt (s : jsstring) : option (jsstring * jsstring) :=
  match s with
  | c :: r => if c =? 48 then Some ([c], r) else digits1 s   (* a lone 0 *)
  | [] => None
  end.

Definition parseFrac (s : jsstring) : option (jsstring * jsstring) :=
  match s with
  | c :: r =>
      if c =? 46 then                                        (* . *)
        match digits1 r with
        | Some (ds, r') => Some (c :: ds, r')
        | None => None
        end
      else Some ([], s)
  | [] => Some ([], s)
  end.

Definition parseExp (s : jsstring) : option (jsstring * jsstring) :=
  match s with
  | e :: r =>
      if (e =? 101) || (e =? 69) then                        (* e E *)
        let (sg, r0) := match r with
                        | c :: r1 =>
                            if (c =? 43) || (c =? 45) then ([c], r1) else ([], r)
                        | [] => ([], r)
                        end in
        match digits1 r0 with
        | Some (ds, r') => Some (e :: sg ++ ds, r')
        | None => None
        end
      else Some ([], s)
  | [] => Some ([], s)
  end.

Definition parseNumber (s : jsstring) : option (jsstring * jsstring) :=
  let (sign, s0) := parseSign s in
  match parseInt s0 with
  | None => None
  | Some (i, s1) =>
      match parseFrac s1 with
      | None => None
      | Some (f, s2) =>
          match parseExp s2 with
          | None => None
          | Some (x, s3) => Some (sign ++ i ++ f ++ x, s3)
          end
      end
  end.

Definition consTo (c : N) (r : option (jsstring * jsstring))
  : option (jsstring * jsstring) :=
  match r with
  | Some (cs, rest) => Some (c :: cs, rest)
  | None => None
  end.

(** The characters of a string after its opening quote, up to and without
    the closing one. *)
Fixpoint parseString (s : jsstring) : option (jsstring * jsstring) :=
  match s with
  | [] => None
  | c :: rest =>
      if c =? 34 then Some ([], rest)                        (* closing quote *)
      else if c =? 92 then                                   (* backslash *)
        match rest with
        | [] => None
        | esc :: rest1 =>
            if (esc =? 34) || (esc =? 92) || (esc =? 47)
            then consTo esc (parseString rest1)
            else if esc =? 98 then consTo 8 (parseString rest1)     (* b *)
            else if esc =? 102 then consTo 12 (parseString rest1)   (* f *)
            else if esc =? 110 then consTo 10 (parseString rest1)   (* n *)
            else if esc =? 114 then consTo 13 (parseString rest1)   (* r *)
            else if esc =? 116 then consTo 9 (parseString rest1)    (* t *)
            else if esc =? 117 then                                 (* uXXXX *)
              match rest1 with
              | h1 :: h2 :: h3 :: h4 :: rest2 =>
                  match hexValue h1, hexValue h2, hexValue h3, hexValue h4 with
                  | Some a, Some b, Some c, Some d =>
                      consTo (((a * 16 + b) * 16 + c) * 16 + d)
                             (parseString rest2)
                  | _, _, _, _ => None
                  end
              | _ => None
              end
            else None
        end
      else if c <? 32 then None                              (* control character *)
      else consTo c (parseString rest)
  end.

Inductive Parsed (A : Type) : Type :=
| Ok (a : A) (rest : jsstring)
| Invalid
| OutOfFuel.

Arguments Ok {A} a rest.
Arguments Invalid {A}.
Arguments OutOfFuel {A}.

(** [true], [false], [null] or a number. *)
Definition parseAtom (s : jsstring) : Parsed Value :=
  match stripPrefix (lit "true") s with
  | Some r => Ok (boolean true) r
  | None =>
  match stripPrefix (lit "false") s with
  | Some r => Ok (boolean false) r
  | None =>
  match stripPrefix (lit "null") s with
  | Some r => Ok null r
  | None =>
  match parseNumber s with
  | Some (n, r) => Ok (number n) r
  | None => Invalid
  end end end end.

(** Does [s] begin, after white space, with the code unit [c]? *)
Definition closes (c : N) (s : jsstring) : option jsstring :=
  match skipWhitespace s with
  | d :: r => if d =? c then Some r else None
  | [] => None
  end.

(** Recursive descent. [parseValue] reads one value after optional white
    space; [parseElements] reads the elements of an array from the first
    one up to and with the closing bracket; [parseMembers] does the same
    for the members of an object. *)
Fixpoint parseValue (fuel : nat) (s : jsstring) : Parsed Value :=
  match fuel with
  | O => OutOfFuel
  | S f =>
      match skipWhitespace s with
      | [] => Invalid
      | c :: r =>
          if c =? 123 then                                   (* { *)
            match closes 125 r with                          (* } *)
            | Some r' => Ok (object []) r'
            | None => match parseMembers f r [] with
                      | Ok ms r' => Ok (object ms) r'
                      | Invalid => Invalid
                      | OutOfFuel => OutOfFuel
                      end
            end
          else if c =? 91 then                               (* [ *)
            match closes 93 r with                           (* ] *)
            | Some r' => Ok (array []) r'
            | None => match parseElements f r [] with
                      | Ok vs r' => Ok (array vs) r'
                      | Invalid => Invalid
                      | OutOfFuel => OutOfFuel
                      end
            end
          else if c =? 34 then                               (* opening quote *)
            match parseString r with
            | Some (cs, r') => Ok (str cs) r'
            | None => Invalid
            end
          else parseAtom (c :: r)
      end
  end

with parseElements (fuel : nat) (s : jsstring) (acc : list Value)
  : Parsed (list Value) :=
  match fuel with
  | O => OutOfFuel
  | S f =>
      match parseValue f s with
      | Ok v r =>
          match closes 44 r with                             (* , *)
          | Some r' => parseElements f r' (acc ++ [v])
          | None =>
              match closes 93 r with                         (* ] *)
              | Some r' => Ok (acc ++ [v]) r'
              | None => Invalid
              end
          end
      | Invalid => Invalid
      | OutOfFuel => OutOfFuel
      end
  end

with parseMembers (fuel : nat) (s : jsstring) (acc : list (jsstring * Value))
  : Parsed (list (jsstring * Value)) :=
  match fuel with
  | O => OutOfFuel
  | S f =>
      match closes 34 s with                                 (* opening quote *)
      | Some r =>
          match parseString r with
          | Some (k, r1) =>
              match closes 58 r1 with                        (* : *)
              | Some r2 =>
                  match parseValue f r2 with
                  | Ok v r3 =>
                      match closes 44 r3 with                (* , *)
                      | Some r4 => parseMembers f r4 (acc ++ [(k, v)])
                      | None =>
                          match closes 125 r3 with           (* } *)
                          | Some r4 => Ok (acc ++ [(k, v)]) r4
                          | None => Invalid
                          end
                      end
                  | Invalid => Invalid
                  | OutOfFuel => OutOfFuel
                  end
              | None => Invalid
              end
          | None => Invalid
          end
      | None => Invalid
      end
  end.

(** Fuel that a text of this length cannot exhaust. *)
Definition enough (s : jsstring) : nat := (2 * List.length s + 2)%nat.

(** [JSON.parse(text)]: one value, white space around it, nothing else;
    anything else is a [SyntaxError]. *)
Definition parse (text : jsstring) : Completion Value :=
  match parseValue (enough text) text with
  | Ok v rest =>
      match skipWhitespace rest with
      | [] => Normal v
      | _ => Throw (SyntaxError "Unexpected non-whitespace character after JSON")
      end
  | _ => Throw (SyntaxError "Unexpected token in JSON")
  end.

End JSON.

(* ================================================================== *)
(** ** types.ts *)
(* ================================================================== *)

Module Types.

Inductive GestureType : Type := FIST | OPEN | NONE.

Definition GestureType_eqb (a b : GestureType) : bool :=
  match a, b with
  | FIST, FIST | OPEN, OPEN | NONE, NONE => true
  | _, _ => false
  end.

(** The two CSS colour forms the engine writes into [Particle.color]:
    [rgba(r, g, b, a)] and [hsla(h, s%, l%, a)]. *)
Inductive Color : Type :=
| rgba (r g b a : R)
| hsla (h s l a : R).

Record Particle : Type := mkParticle {
  x : R;
  y : R;
  vx : R;
  vy : R;
  targetX : option R;
  targetY : option R;
  color : Color;
  size : R;
  baseX : R;
  baseY : R
}.

(** The enum is a string enum: each member is its own name at run time. *)
Definition GestureType_value (g : GestureType) : Js.Value :=
  Js.str (Js.lit match g with
                 | FIST => "FIST"
                 | OPEN => "OPEN"
                 | NONE => "NONE"
                 end).

End Types.

Import Types.

(* ================================================================== *)
(** ** services/gemini.ts *)
(* ================================================================== *)

Module Gemini.

Import Js.
Local Open Scope N_scope.

(** The class [\s] of a regular expression. *)
Definition isSpace (c : N) : bool :=
  ((9 <=? c) && (c <=? 13)) || (c =? 32) || (c =? 160) || (c =? 5760)
  || ((8192 <=? c) && (c <=? 8202)) || (c =? 8232) || (c =? 8233)
  || (c =? 8239) || (c =? 8287) || (c =? 12288) || (c =? 65279).

Fixpoint dropSpaces (s : jsstring) : jsstring :=
  match s with
  | c :: rest => if isSpace c then dropSpaces rest else s
  | [] => []
  end.

(** [s.replace(/^prefix\s*/, '')] for a literal prefix. *)
Definition replaceLeading (prefix : string) (s : jsstring) : jsstring :=
  match stripPrefix (lit prefix) s with
  | Some rest => dropSpaces rest
  | None => s
  end.

(** [s.replace(/\s*```$/, '')]: the leftmost match takes the final fence
    and the whole run of white space before it. *)
Definition replaceTrailingFence (s : jsstring) : jsstring :=
  match stripPrefix (lit "```") (rev s) with
  | Some rest => rev (dropSpaces rest)
  | None => s
  end.

(** [base64Image.replace(/^data:image\/(png|jpeg|webp);base64,/, '')] *)
Definition removeDataUrlPrefix (base64Image : jsstring) : jsstring :=
  match stripPrefix (lit "data:image/png;base64,") base64Image with
  | Some rest => rest
  | None =>
  match stripPrefix (lit "data:image/jpeg;base64,") base64Image with
  | Some rest => rest
  | None =>
  match stripPrefix (lit "data:image/webp;base64,") base64Image with
  | Some rest => rest
  | None => base64Image
  end end end.

(** Lines 59-61. *)
Definition sanitize (jsonText : jsstring) : jsstring :=
  if startsWith jsonText (lit "```")
  then replaceTrailingFence
         (replaceLeading "```" (replaceLeading "```json" jsonText))
  else jsonText.

(** [x || fallback] on strings: the empty string is falsy. *)
Definition orElse (x : option jsstring) (fallback : jsstring) : jsstring :=
  match x with
  | Some (c :: rest) => c :: rest
  | _ => fallback
  end.

(** [detectHandGesture]. [env_API_KEY] is [process.env.API_KEY];
    [generateContent] stands for [ai.models.generateContent] with the fixed
    model, prompt and schema: from the image data it gives [response.text]
    (which may be [undefined]), or throws. The result is the completion of
    the returned promise. *)
Definition detectHandGesture (env_API_KEY : option jsstring)
    (generateContent : jsstring -> Completion (option jsstring))
    (base64Image : jsstring) : Completion Value :=
  let apiKey := orElse env_API_KEY [] in
  match apiKey with
  | [] => Normal (GestureType_value NONE)
  | _ =>
      try_catch
        (let cleanBase64 := removeDataUrlPrefix base64Image in
         response <- generateContent cleanBase64 ;;
         let jsonText := sanitize (orElse response (lit "{}")) in
         result <- JSON.parse jsonText ;;
         gesture <- getProperty result "gesture" ;;
         Normal gesture)
        (fun error => Normal (GestureType_value NONE))
  end.

End Gemini.

(* ================================================================== *)
(** ** App.tsx *)
(* ================================================================== *)

Module App.

Record State : Type := mkState {
  cameraGesture : GestureType;
  isShiftPressed : bool
}.

Definition initial : State := mkState NONE false.

(** Line 12. *)
Definition currentGesture (st : State) : GestureType :=
  if isShiftPressed st then FIST else cameraGesture st.

Inductive Event : Type :=
| KeyDown (key : Js.jsstring)
| KeyUp (key : Js.jsstring)
| GestureDetected (g : GestureType).

Definition handleKeyDown (key : Js.jsstring) (st : State) : State :=
  if Js.eqb key (Js.lit "Shift") then mkState (cameraGesture st) true else st.

Definition handleKeyUp (key : Js.jsstring) (st : State) : State :=
  if Js.eqb key (Js.lit "Shift") then mkState (cameraGesture st) false else st.

Definition setCameraGesture (g : GestureType) (st : State) : State :=
  mkState g (isShiftPressed st).

Definition handle (st : State) (e : Event) : State :=
  match e with
  | KeyDown key => handleKeyDown key st
  | KeyUp key => handleKeyUp key st
  | GestureDetected g => setCameraGesture g st
  end.

Definition run (es : list Event) (st : State) : State := fold_left handle es st.

(** The label of the last [GestureDetected] among [es], or [start]. *)
Definition lastPublished (es : list Event) (start : GestureType) : GestureType :=
  fold_left (fun acc e => match e with GestureDetected g => g | _ => acc end)
            es start.

End App.

(* ================================================================== *)
(** ** components/GestureControl.tsx *)
(* ================================================================== *)

Module GestureControl.

Import Js.

(** A stream is known by its identity. *)
Definition MediaStream : Type := nat.

Record MediaDeviceInfo : Type := mkDevice { kind : jsstring; deviceId : jsstring }.

(** The three constraint objects [startCamera] passes to [getUserMedia]. *)
Inductive Constraints : Type :=
| UserFacingLowRes
| AnyVideo
| ExactDevice (id : jsstring).

(** [navigator.mediaDevices]: both calls may reject. *)
Record MediaDevices : Type := mkMediaDevices {
  getUserMedia : Constraints -> Completion MediaStream;
  enumerateDevices : Completion (list MediaDeviceInfo)
}.

Inductive Request : Type :=
| GetUserMedia (c : Constraints)
| EnumerateDevices.

Record Video : Type := mkVideo {
  srcObject : option MediaStream;
  onloadedmetadata : bool;
  playing : bool
}.

Record CanvasElement : Type := mkCanvas {
  canvasWidth : nat;
  canvasHeight : nat;
  has2d : bool
}.

(** The refs and state of the component, the values of [isCameraReady] and
    [isProcessing] that the [captureAndAnalyze] of the running interval
    closed over, and what the component has done to the outside: requests
    to the media devices, streams whose tracks were stopped, images handed
    to [detectHandGesture] whose promise is still pending, and the values
    passed to [onGestureDetected]. *)
Record State : Type := mkState {
  videoRef : option Video;
  canvasRef : option CanvasElement;
  streamRef : option MediaStream;
  isCameraReady : bool;
  error : option jsstring;
  isProcessing : bool;
  closure : bool * bool;
  requests : list Request;
  stopped : list MediaStream;
  inFlight : list jsstring;
  published : list Value
}.

Definition initial (video : option Video) (canvas : option CanvasElement) : State :=
  mkState video canvas None false None false (false, false) [] [] [] [].

Definition set_videoRef (v : option Video) (st : State) : State :=
  mkState v (canvasRef st) (streamRef st) (isCameraReady st) (error st)
          (isProcessing st) (closure st) (requests st) (stopped st)
          (inFlight st) (published st).

Definition set_canvasRef (v : option CanvasElement) (st : State) : State :=
  mkState (videoRef st) v (streamRef st) (isCameraReady st) (error st)
          (isProcessing st) (closure st) (requests st) (stopped st)
          (inFlight st) (published st).

Definition set_streamRef (v : option MediaStream) (st : State) : State :=
  mkState (videoRef st) (canvasRef st) v (isCameraReady st) (error st)
          (isProcessing st) (closure st) (requests st) (stopped st)
          (inFlight st) (published st).

Definition setIsCameraReady (v : bool) (st : State) : State :=
  mkState (videoRef st) (canvasRef st) (streamRef st) v (error st)
          (isProcessing st) (closure st) (requests st) (stopped st)
          (inFlight st) (published st).

Definition setError (v : option jsstring) (st : State) : State :=
  mkState (videoRef st) (canvasRef st) (streamRef st) (isCameraReady st) v
          (isProcessing st) (closure st) (requests st) (stopped st)
          (inFlight st) (published st).

Definition setIsProcessing (v : bool) (st : State) : State :=
  mkState (videoRef st) (canvasRef st) (streamRef st) (isCameraReady st)
          (error st) v (closure st) (requests st) (stopped st)
          (inFlight st) (published st).

Definition set_closure (v : bool * bool) (st : State) : State :=
  mkState (videoRef st) (canvasRef st) (streamRef st) (isCameraReady st)
          (error st) (isProcessing st) v (requests st) (stopped st)
          (inFlight st) (published st).

Definition set_requests (v : list Request) (st : State) : State :=
  mkState (videoRef st) (canvasRef st) (streamRef st) (isCameraReady st)
          (error st) (isProcessing st) (closure st) v (stopped st)
          (inFlight st) (published st).

Definition set_stopped (v : list MediaStream) (st : State) : State :=
  mkState (videoRef st) (canvasRef st) (streamRef st) (isCameraReady st)
          (error st) (isProcessing st) (closure st) (requests st) v
          (inFlight st) (published st).

Definition set_inFlight (v : list jsstring) (st : State) : State :=
  mkState (videoRef st) (canvasRef st) (streamRef st) (isCameraReady st)
          (error st) (isProcessing st) (closure st) (requests st) (stopped st)
          v (published st).

Definition set_published (v : list Value) (st : State) : State :=
  mkState (videoRef st) (canvasRef st) (streamRef st) (isCameraReady st)
          (error st) (isProcessing st) (closure st) (requests st) (stopped st)
          (inFlight st) v.

Definition stopCamera (st : State) : State :=
  let st1 := match streamRef st with
             | Some stream =>
                 set_streamRef None (set_stopped (stopped st ++ [stream]) st)
             | None => st
             end in
  let st2 := match videoRef st1 with
             | Some video =>
                 set_videoRef
                   (Some (mkVideo None (onloadedmetadata video) (playing video)))
                   st1
             | None => st1
             end in
  setIsCameraReady false st2.

Definition handleStreamSuccess (stream : MediaStream) (st : State) : State :=
  let st1 := set_streamRef (Some stream) st in
  let st2 := match videoRef st1 with
             | Some video =>
                 set_videoRef (Some (mkVideo (Some stream) true (playing video))) st1
             | None => st1
             end in
  setError None st2.

(** The [loadedmetadata] event of the video element, which a bound stream
    fires: it runs the handler that [handleStreamSuccess] installed. *)
Definition loadedmetadata (st : State) : State :=
  match videoRef st with
  | Some video =>
      match srcObject video with
      | Some _ =>
          if onloadedmetadata video
          then set_videoRef (Some (mkVideo (srcObject video) true true))
                            (setIsCameraReady true st)
          else st
      | None => st
      end
  | None => st
  end.

Definition msgGeneric : jsstring := lit "Unable to access camera.".
Definition msgPermission : jsstring :=
  lit "Permission denied. Please allow camera access.".
Definition msgInUse : jsstring := lit "Camera is in use by another app.".
Definition msgNotFound : jsstring := lit "No camera found.".
Definition msgHardware : jsstring := lit "Hardware error: Camera may be busy.".

Definition handleError (err : Error) (st : State) : State :=
  let msg :=
    if eqb (name err) (lit "NotAllowedError")
       || eqb (name err) (lit "PermissionDeniedError")
    then msgPermission
    else if eqb (name err) (lit "NotReadableError")
            || eqb (name err) (lit "TrackStartError")
    then msgInUse
    else if eqb (name err) (lit "NotFoundError")
            || eqb (name err) (lit "DevicesNotFoundError")
    then msgNotFound
    else if match message err with [] => false | _ => true end
            && includes (message err) (lit "Could not start video source")
    then msgHardware
    else msgGeneric in
  setError (Some msg) st.

Definition request (r : Request) (st : State) : State :=
  set_requests (requests st ++ [r]) st.

(** [startCamera]: each [try] block is a [match] on the completion of the
    call it awaits. *)
Definition startCamera (md : MediaDevices) (st : State) : State :=
  let st0 := setError None (stopCamera st) in
  (* Strategy 1 *)
  let st1 := request (GetUserMedia UserFacingLowRes) st0 in
  match getUserMedia md UserFacingLowRes with
  | Normal stream => handleStreamSuccess stream st1
  | Throw _ =>
  (* Strategy 2 *)
  let st2 := request (GetUserMedia AnyVideo) st1 in
  match getUserMedia md AnyVideo with
  | Normal stream => handleStreamSuccess stream st2
  | Throw _ =>
  (* Strategy 3 *)
  let st3 := request EnumerateDevices st2 in
  match enumerateDevices md with
  | Throw finalErr => handleError finalErr st3
  | Normal devices =>
      let videoDevices :=
        filter (fun d => eqb (kind d) (lit "videoinput")) devices in
      match videoDevices with
      | first :: _ =>
          let st4 := request (GetUserMedia (ExactDevice (deviceId first))) st3 in
          match getUserMedia md (ExactDevice (deviceId first)) with
          | Normal stream => handleStreamSuccess stream st4
          | Throw finalErr => handleError finalErr st4
          end
      | [] =>
          handleError (mkError (lit "Error") (lit "No video input devices found"))
                      st3
      end
  end end end.

(** [captureAndAnalyze], up to its [await]. The video element shows a
    frame of [videoWidth] by [videoHeight]; [dataURL] is what drawing it
    and [canvas.toDataURL] give, or the exception they throw. The guard
    reads the values the callback closed over. *)
Definition captureAndAnalyze (videoWidth videoHeight : nat)
    (dataURL : Completion jsstring) (st : State) : State :=
  match videoRef st, canvasRef st with
  | Some _, Some canvas =>
      if negb (fst (closure st)) || snd (closure st) then st
      else if Nat.eqb videoWidth 0 || Nat.eqb videoHeight 0 then st
      else
        let st1 := setIsProcessing true st in
        if has2d canvas then
          let st2 := set_canvasRef
                       (Some (mkCanvas videoWidth videoHeight true)) st1 in
          match dataURL with
          | Normal base64Image =>
              (* detectHandGesture(base64Image) is called; the function
                 suspends until its promise settles *)
              set_inFlight (inFlight st2 ++ [base64Image]) st2
          | Throw _ => setIsProcessing false st2
          end
        else setIsProcessing false st1
  | _, _ => st
  end.

(** The rest of [captureAndAnalyze], run when the oldest pending promise
    settles: publication on fulfilment, then the [finally] block. *)
Definition settle (outcome : Completion Value) (st : State) : State :=
  match inFlight st with
  | [] => st
  | _ :: rest =>
      let st1 := set_inFlight rest st in
      let st2 := match outcome with
                 | Normal gesture => set_published (published st1 ++ [gesture]) st1
                 | Throw _ => st1
                 end in
      setIsProcessing false st2
  end.

(** React renders again after a state update: [captureAndAnalyze] is made
    anew over the current state and the interval is re-armed with it. *)
Definition commit (st : State) : State :=
  set_closure (isCameraReady st, isProcessing st) st.

Inductive Event : Type :=
| Start (md : MediaDevices)
| LoadedMetadata
| Tick (videoWidth videoHeight : nat) (dataURL : Completion jsstring)
| Settle (outcome : Completion Value).

(** One turn of the event loop: the handler, then React's re-render, which
    comes well within the 800 ms that separate two ticks. *)
Definition step (st : State) (e : Event) : State :=
  commit match e with
         | Start md => startCamera md st
         | LoadedMetadata => loadedmetadata st
         | Tick w h dataURL => captureAndAnalyze w h dataURL st
         | Settle outcome => settle outcome st
         end.

Definition run (es : list Event) (st : State) : State := fold_left step es st.

End GestureControl.

Module Point.
Record t : Type := mk { x : R; y : R }.
End Point.

Open Scope R_scope.

(* ================================================================== *)
(** ** The 2D drawing context, as far as [animate] drives it *)
(* ================================================================== *)

Module Canvas.

Record Arc : Type := mkArc { cx : R; cy : R; radius : R; a0 : R; a1 : R }.

(** One filled path, with the paint settings in force when it was filled. *)
Record Fill : Type := mkFill {
  shape : list Arc;
  paint : Color;
  blur : R;
  glow : Color
}.

Record Context2D : Type := mkContext {
  fillStyle : Color;
  shadowBlur : R;
  shadowColor : Color;
  path : list Arc;
  painted : list Fill
}.

(** [ctx.clearRect(0, 0, canvas.width, canvas.height)]: the whole bitmap. *)
Definition clearRect (c : Context2D) : Context2D :=
  mkContext (fillStyle c) (shadowBlur c) (shadowColor c) (path c) [].

Definition beginPath (c : Context2D) : Context2D :=
  mkContext (fillStyle c) (shadowBlur c) (shadowColor c) [] (painted c).

(** [ctx.arc(x, y, radius, startAngle, endAngle)] throws an
    [IndexSizeError] when the radius is negative. *)
Definition arc (px py r s e : R) (c : Context2D) : Js.Completion Context2D :=
  if Rlt_dec r 0 then Js.Throw Js.IndexSizeError
  else Js.Normal (mkContext (fillStyle c) (shadowBlur c) (shadowColor c)
                            (path c ++ [mkArc px py r s e]) (painted c)).

Definition set_fillStyle (v : Color) (c : Context2D) : Context2D :=
  mkContext v (shadowBlur c) (shadowColor c) (path c) (painted c).

Definition set_shadowBlur (v : R) (c : Context2D) : Context2D :=
  mkContext (fillStyle c) v (shadowColor c) (path c) (painted c).

Definition set_shadowColor (v : Color) (c : Context2D) : Context2D :=
  mkContext (fillStyle c) (shadowBlur c) v (path c) (painted c).

Definition fill (c : Context2D) : Context2D :=
  mkContext (fillStyle c) (shadowBlur c) (shadowColor c) (path c)
            (painted c ++ [mkFill (path c) (fillStyle c) (shadowBlur c) (shadowColor c)]).

End Canvas.

(* ================================================================== *)
(** ** components/ParticleCanvas.tsx *)
(* ================================================================== *)

Module ParticleCanvas.

(** [Math.atan2(y, x)] *)
Definition atan2 (py px : R) : R :=
  if Rlt_dec 0 px then atan (py / px)
  else if Rlt_dec px 0 then
         (if Rlt_dec py 0 then atan (py / px) - PI else atan (py / px) + PI)
       else if Rlt_dec 0 py then PI / 2
            else if Rlt_dec py 0 then - (PI / 2)
                 else 0.

Record Dimensions : Type := mkDimensions { width : R; height : R }.

(** The refs of the component, the [gesture] prop its effect closed over,
    and the 2D context of its canvas ([None] when [canvasRef.current] or
    [getContext('2d')] is null). *)
Record Component : Type := mkComponent {
  ctx : option Canvas.Context2D;
  particlesRef : list Particle;
  mouseRef : Point.t;
  dimensionsRef : Dimensions;
  gesture : GestureType
}.

Definition particleCount : nat := 1200.

(** [initParticles]: particle [i] consumes the seven draws
    [rand (7 i) .. rand (7 i + 6)] of [Math.random], in the order the
    object literal evaluates them. *)
Definition initParticle (rand : nat -> R) (w h : R) (i : nat) : Particle :=
  let d k := rand (7 * i + k)%nat in
  {| x := d 0%nat * w;
     y := d 1%nat * h;
     vx := (d 2%nat - 0.5) * 2;
     vy := (d 3%nat - 0.5) * 2;
     targetX := None;
     targetY := None;
     color := rgba 100 200 255 0.8;
     size := d 4%nat * 2 + 1;
     baseX := d 5%nat * w;
     baseY := d 6%nat * h |}.

Definition initParticles (rand : nat -> R) (w h : R) : list Particle :=
  map (initParticle rand w h) (seq 0 particleCount).

Definition calculateFlowerTarget
    (index total centerX centerY w h : R) : Point.t :=
  let k := 5 in
  let theta := (index / total) * PI * 2 * 4 in
  let scale := Rmin w h * 0.35 in
  let r := scale * cos (k * theta) in
  let targetX := centerX + r * cos theta in
  let targetY := centerY + r * sin theta in
  Point.mk targetX targetY.

(** The flower branch of the [forEach] callback (lines 100-122). *)
Definition flowerUpdate (now : R) (mouse : Point.t) (d : Dimensions)
    (total i : nat) (p : Particle) : Particle :=
  let target := calculateFlowerTarget (INR i) (INR total)
                  (Point.x mouse) (Point.y mouse) (width d) (height d) in
  let dx := Point.x target - x p in
  let dy := Point.y target - y p in
  let vx1 := dx * 0.05 in
  let vy1 := dy * 0.05 in
  {| x := x p + vx1;
     y := y p + vy1;
     vx := vx1;
     vy := vy1;
     targetX := targetX p;
     targetY := targetY p;
     color := hsla (320 + sin (now * 0.001 + INR i) * 30) 80 60 0.9;
     size := size p;
     baseX := baseX p;
     baseY := baseY p |}.

(** Lines 140-143, one axis: the two tests run one after the other. *)
Definition wrap (bound c : R) : R :=
  let c1 := if Rlt_dec c 0 then bound else c in
  if Rgt_dec c1 bound then 0 else c1.

Definition maxSpeed : R := 2.

Definition limit (v : R) : R := Rmax (Rmin v maxSpeed) (- maxSpeed).

(** The open branch of the [forEach] callback (lines 125-157); [r0] and
    [r1] are its two draws of [Math.random]. *)
Definition openUpdate (now r0 r1 : R) (mouse : Point.t) (d : Dimensions)
    (i : nat) (p : Particle) : Particle :=
  let vx1 := limit (vx p + (r0 - 0.5) * 0.1) in
  let vy1 := limit (vy p + (r1 - 0.5) * 0.1) in
  let x1 := wrap (width d) (x p + vx1) in
  let y1 := wrap (height d) (y p + vy1) in
  let dx := x1 - Point.x mouse in
  let dy := y1 - Point.y mouse in
  let dist := sqrt (dx * dx + dy * dy) in
  let repel := if Rlt_dec dist 100 then true else false in
  let angle := atan2 dy dx in
  let force := (100 - dist) * 0.1 in
  {| x := x1;
     y := y1;
     vx := if repel then vx1 + cos angle * force else vx1;
     vy := if repel then vy1 + sin angle * force else vy1;
     targetX := targetX p;
     targetY := targetY p;
     color := hsla (180 + sin (now * 0.001 + INR i) * 30) 80 60 0.8;
     size := size p;
     baseX := baseX p;
     baseY := baseY p |}.

(** The physics half of the callback. *)
Definition update (isFlowerMode : bool) (now : R) (rand : nat -> R)
    (mouse : Point.t) (d : Dimensions) (total i : nat) (p : Particle)
  : Particle :=
  if isFlowerMode then flowerUpdate now mouse d total i p
  else openUpdate now (rand (2 * i)%nat) (rand (2 * i + 1)%nat) mouse d i p.

(** The drawing half of the callback (lines 160-172). *)
Definition draw (isFlowerMode : bool) (p : Particle) (c : Canvas.Context2D)
  : Js.Completion Canvas.Context2D :=
  c1 <- Canvas.arc (x p) (y p) (size p) 0 (PI * 2) (Canvas.beginPath c) ;;
  let c2 := Canvas.fill (Canvas.set_fillStyle (color p) c1) in
  Js.Normal (if isFlowerMode
             then Canvas.set_shadowColor (color p) (Canvas.set_shadowBlur 10 c2)
             else Canvas.set_shadowBlur 0 c2).

(** [particlesRef.current.forEach((p, i) => ...)], from index [i] on. *)
Fixpoint forEach (isFlowerMode : bool) (now : R) (rand : nat -> R)
    (mouse : Point.t) (d : Dimensions) (total i : nat)
    (ps : list Particle) (c : Canvas.Context2D)
  : Js.Completion (list Particle * Canvas.Context2D) :=
  match ps with
  | [] => Js.Normal ([], c)
  | p :: rest =>
      let p' := update isFlowerMode now rand mouse d total i p in
      c' <- draw isFlowerMode p' c ;;
      r <- forEach isFlowerMode now rand mouse d total (S i) rest c' ;;
      Js.Normal (p' :: fst r, snd r)
  end.

(** One frame: [animate], without the re-scheduling of itself. *)
Definition animate (now : R) (rand : nat -> R) (st : Component)
  : Js.Completion Component :=
  match ctx st with
  | None => Js.Normal st
  | Some c =>
      let c0 := Canvas.clearRect c in
      let w := width (dimensionsRef st) in
      let h := height (dimensionsRef st) in
      let isFlowerMode := GestureType_eqb (gesture st) FIST in
      r <- forEach isFlowerMode now rand (mouseRef st) (mkDimensions w h)
                   (length (particlesRef st)) 0 (particlesRef st) c0 ;;
      Js.Normal (mkComponent (Some (Canvas.set_shadowBlur 0 (snd r)))
                             (fst r) (mouseRef st) (dimensionsRef st)
                             (gesture st))
  end.

(** [handleResize] for a window of [innerWidth] by [innerHeight]. *)
Definition handleResize (innerWidth innerHeight : R) (rand : nat -> R)
    (st : Component) : Component :=
  mkComponent (ctx st)
    (if Nat.eqb (length (particlesRef st)) 0
     then initParticles rand innerWidth innerHeight
     else particlesRef st)
    (mouseRef st)
    (mkDimensions innerWidth innerHeight)
    (gesture st).

Definition handleMouseMove (clientX clientY : R) (st : Component) : Component :=
  mkComponent (ctx st) (particlesRef st) (Point.mk clientX clientY)
              (dimensionsRef st) (gesture st).

(** The body of the effect, which React runs on mount and again whenever
    the [gesture] prop changes: it sizes the canvas, re-centres the mouse
    and closes [animate] over the new gesture. Without a canvas or a
    context it returns at once. *)
Definition effect (g : GestureType) (innerWidth innerHeight : R)
    (rand : nat -> R) (st : Component) : Component :=
  match ctx st with
  | None => st
  | Some _ =>
      let st1 := handleResize innerWidth innerHeight rand st in
      mkComponent (ctx st1) (particlesRef st1)
                  (Point.mk (innerWidth / 2) (innerHeight / 2))
                  (dimensionsRef st1) g
  end.

(** The component before its effect has run. *)
Definition initial (c : option Canvas.Context2D) (innerWidth innerHeight : R)
  : Component :=
  mkComponent c [] (Point.mk (innerWidth / 2) (innerHeight / 2))
              (mkDimensions 0 0) NONE.

Inductive Event : Type :=
| Render (g : GestureType) (innerWidth innerHeight : R) (rand : nat -> R)
| Resize (innerWidth innerHeight : R) (rand : nat -> R)
| MouseMove (clientX clientY : R)
| Frame (now : R) (rand : nat -> R).

Definition handle (e : Event) (st : Component) : Js.Completion Component :=
  match e with
  | Render g w h rand => Js.Normal (effect g w h rand st)
  | Resize w h rand =>
      Js.Normal (match ctx st with
                 | None => st
                 | Some _ => handleResize w h rand st
                 end)
  | MouseMove cx cy =>
      Js.Normal (match ctx st with
                 | None => st
                 | Some _ => handleMouseMove cx cy st
                 end)
  | Frame now rand => animate now rand st
  end.

Fixpoint run (es : list Event) (st : Component) : Js.Completion Component :=
  match es with
  | [] => Js.Normal st
  | e :: rest => st' <- handle e st ;; run rest st'
  end.

End ParticleCanvas.

(* ================================================================== *)
(** ** Notions of the specification *)
(* ================================================================== *)

Unset Implicit Arguments.

(** The angle the specification gives to a particle. *)
Definition sweepAngle (index total : R) : R := (index / total) * (8 * PI).

(** What one frame makes of the particles from index [i] on. *)
Fixpoint updateFrom (isFlowerMode : bool) (now : R) (rand : nat -> R)
    (mouse : Point.t) (d : ParticleCanvas.Dimensions) (total i : nat)
    (ps : list Particle) : list Particle :=
  match ps with
  | [] => []
  | p :: rest =>
      ParticleCanvas.update isFlowerMode now rand mouse d total i p
      :: updateFrom isFlowerMode now rand mouse d total (S i) rest
  end.

(** The population right after [initParticles] has non-negative radii;
    no frame changes a radius. *)
Definition drawable (ps : list Particle) : Prop :=
  Forall (fun p => 0 <= size p) ps.

(** The target of particle [i] in a component. *)
Definition targetOf (st : ParticleCanvas.Component) (i : nat) : Point.t :=
  ParticleCanvas.calculateFlowerTarget
    (INR i) (INR (List.length (ParticleCanvas.particlesRef st)))
    (Point.x (ParticleCanvas.mouseRef st)) (Point.y (ParticleCanvas.mouseRef st))
    (ParticleCanvas.width (ParticleCanvas.dimensionsRef st))
    (ParticleCanvas.height (ParticleCanvas.dimensionsRef st)).



(** The particles a frame leaves behind. *)
Definition stepped (now : R) (rand : nat -> R) (st : ParticleCanvas.Component)
  : list Particle :=
  updateFrom (GestureType_eqb (ParticleCanvas.gesture st) FIST) now rand
             (ParticleCanvas.mouseRef st) (ParticleCanvas.dimensionsRef st)
             (List.length (ParticleCanvas.particlesRef st)) 0
             (ParticleCanvas.particlesRef st).

(** A particle inside the closed rectangle of the surface. *)
Definition onSurface (d : ParticleCanvas.Dimensions) (p : Particle) : Prop :=
  0 <= x p <= ParticleCanvas.width d /\ 0 <= y p <= ParticleCanvas.height d.

(** What a frame keeps: the context stays, and so do gesture, pointer,
    surface and the number of particles, hence every target. *)
Definition sameSetting (st st' : ParticleCanvas.Component) : Prop :=
  (exists c', ParticleCanvas.ctx st' = Some c')
  /\ ParticleCanvas.gesture st' = ParticleCanvas.gesture st
  /\ ParticleCanvas.mouseRef st' = ParticleCanvas.mouseRef st
  /\ ParticleCanvas.dimensionsRef st' = ParticleCanvas.dimensionsRef st
  /\ List.length (ParticleCanvas.particlesRef st')
     = List.length (ParticleCanvas.particlesRef st)
  /\ drawable (ParticleCanvas.particlesRef st').

(* ------------------------------------------------------------------ *)
(** *** Concrete inputs *)
(* ------------------------------------------------------------------ *)

Definition blankContext : Canvas.Context2D :=
  Canvas.mkContext (rgba 0 0 0 1) 0 (rgba 0 0 0 0) [] [].

Definition particleAt (px py pvx pvy : R) : Particle :=
  mkParticle px py pvx pvy None None (rgba 100 200 255 0.8) 1 px py.

(** Open mode on a 100 by 100 surface, the pointer far away, one particle
    on the left edge moving left by one unit per frame. *)
Definition leftEdge : ParticleCanvas.Component :=
  ParticleCanvas.mkComponent (Some blankContext) [particleAt 0 50 (-1) 0]
    (Point.mk 500 500) (ParticleCanvas.mkDimensions 100 100) OPEN.

(** No random acceleration: every draw of [Math.random] is one half. *)
Definition calm : nat -> R := fun _ => 0.5.

(** Flower mode on a 100 by 100 surface with the pointer on its right edge:
    the only particle rests on its target, 35 units beyond the edge. *)
Definition rightEdge : ParticleCanvas.Component :=
  ParticleCanvas.mkComponent (Some blankContext) [particleAt 135 50 0 0]
    (Point.mk 100 50) (ParticleCanvas.mkDimensions 100 100) FIST.

(** Flower mode on a 100 by 100 surface, the pointer in the middle, two
    particles away from their targets. *)
Definition blooming : ParticleCanvas.Component :=
  ParticleCanvas.mkComponent (Some blankContext)
    [particleAt 0 0 1 1; particleAt 10 90 (-2) 0]
    (Point.mk 50 50) (ParticleCanvas.mkDimensions 100 100) FIST.


(** A window of 800 by 600 whose component has just been mounted in open
    mode: its effect has run once and seeded the population. *)
Definition mounted : ParticleCanvas.Component :=
  ParticleCanvas.effect OPEN 800 600 calm
    (ParticleCanvas.initial (Some blankContext) 800 600).

(** Frames with gesture switches OPEN, FIST, OPEN, FIST between them, a
    pointer move and a resize. *)
Definition switching : list ParticleCanvas.Event :=
  [ParticleCanvas.Frame 0 calm;
   ParticleCanvas.Render FIST 800 600 calm;
   ParticleCanvas.Frame 16 calm;
   ParticleCanvas.MouseMove 10 20;
   ParticleCanvas.Render OPEN 800 600 calm;
   ParticleCanvas.Frame 32 calm;
   ParticleCanvas.Resize 0 0 calm;
   ParticleCanvas.Render FIST 0 0 calm;
   ParticleCanvas.Frame 48 calm].

(* ------------------------------------------------------------------ *)
(** *** CameraSource *)
(* ------------------------------------------------------------------ *)

(** The acquisition protocol of the specification: the requests made to
    the media devices, in order, and the stream won or the final failure.
    First success wins; the third strategy asks for the first enumerated
    video input by identity and fails as well when enumeration fails or
    lists no video input. *)
Inductive Acquisition (md : GestureControl.MediaDevices)
  : list GestureControl.Request -> Js.Completion GestureControl.MediaStream
    -> Prop :=
| first_wins (s : GestureControl.MediaStream) :
    GestureControl.getUserMedia md GestureControl.UserFacingLowRes = Js.Normal s ->
    Acquisition md
      [GestureControl.GetUserMedia GestureControl.UserFacingLowRes]
      (Js.Normal s)
| second_wins (e1 : Js.Error) (s : GestureControl.MediaStream) :
    GestureControl.getUserMedia md GestureControl.UserFacingLowRes = Js.Throw e1 ->
    GestureControl.getUserMedia md GestureControl.AnyVideo = Js.Normal s ->
    Acquisition md
      [GestureControl.GetUserMedia GestureControl.UserFacingLowRes;
       GestureControl.GetUserMedia GestureControl.AnyVideo]
      (Js.Normal s)
| third_decides (e1 e2 : Js.Error)
    (devices : list GestureControl.MediaDeviceInfo)
    (d : GestureControl.MediaDeviceInfo)
    (others : list GestureControl.MediaDeviceInfo)
    (result : Js.Completion GestureControl.MediaStream) :
    GestureControl.getUserMedia md GestureControl.UserFacingLowRes = Js.Throw e1 ->
    GestureControl.getUserMedia md GestureControl.AnyVideo = Js.Throw e2 ->
    GestureControl.enumerateDevices md = Js.Normal devices ->
    filter (fun d => Js.eqb (GestureControl.kind d) (Js.lit "videoinput")) devices
    = d :: others ->
    GestureControl.getUserMedia md
      (GestureControl.ExactDevice (GestureControl.deviceId d)) = result ->
    Acquisition md
      [GestureControl.GetUserMedia GestureControl.UserFacingLowRes;
       GestureControl.GetUserMedia GestureControl.AnyVideo;
       GestureControl.EnumerateDevices;
       GestureControl.GetUserMedia
         (GestureControl.ExactDevice (GestureControl.deviceId d))]
      result
| no_video_input (e1 e2 : Js.Error)
    (devices : list GestureControl.MediaDeviceInfo) :
    GestureControl.getUserMedia md GestureControl.UserFacingLowRes = Js.Throw e1 ->
    GestureControl.getUserMedia md GestureControl.AnyVideo = Js.Throw e2 ->
    GestureControl.enumerateDevices md = Js.Normal devices ->
    filter (fun d => Js.eqb (GestureControl.kind d) (Js.lit "videoinput")) devices
    = [] ->
    Acquisition md
      [GestureControl.GetUserMedia GestureControl.UserFacingLowRes;
       GestureControl.GetUserMedia GestureControl.AnyVideo;
       GestureControl.EnumerateDevices]
      (Js.Throw (Js.mkError (Js.lit "Error")
                            (Js.lit "No video input devices found")))
| enumeration_fails (e1 e2 e3 : Js.Error) :
    GestureControl.getUserMedia md GestureControl.UserFacingLowRes = Js.Throw e1 ->
    GestureControl.getUserMedia md GestureControl.AnyVideo = Js.Throw e2 ->
    GestureControl.enumerateDevices md = Js.Throw e3 ->
    Acquisition md
      [GestureControl.GetUserMedia GestureControl.UserFacingLowRes;
       GestureControl.GetUserMedia GestureControl.AnyVideo;
       GestureControl.EnumerateDevices]
      (Js.Throw e3).

(** The name of an error is one of the given names. *)
Definition named (e : Js.Error) (names : list string) : Prop :=
  exists n, In n names /\ Js.name e = Js.lit n.

Definition knownNames : list string :=
  ["NotAllowedError"%string; "PermissionDeniedError"%string; "NotReadableError"%string;
   "TrackStartError"%string; "NotFoundError"%string; "DevicesNotFoundError"%string].

(** The taxonomy of the specification: the message shown for a final
    failure. *)
Definition taxonomy (e : Js.Error) (msg : Js.jsstring) : Prop :=
  (named e ["NotAllowedError"%string; "PermissionDeniedError"%string] ->
   msg = Js.lit "Permission denied. Please allow camera access.")
  /\ (named e ["NotReadableError"%string; "TrackStartError"%string] ->
      msg = Js.lit "Camera is in use by another app.")
  /\ (named e ["NotFoundError"%string; "DevicesNotFoundError"%string] ->
      msg = Js.lit "No camera found.")
  /\ (~ named e knownNames ->
      Js.includes (Js.message e) (Js.lit "Could not start video source") = true ->
      msg = Js.lit "Hardware error: Camera may be busy.")
  /\ (~ named e knownNames ->
      Js.includes (Js.message e) (Js.lit "Could not start video source") = false ->
      msg = Js.lit "Unable to access camera.").

(** A mounted component that has not asked for the camera yet. *)
Definition fresh : GestureControl.State :=
  GestureControl.initial (Some (GestureControl.mkVideo None false false))
                         (Some (GestureControl.mkCanvas 300 150 true)).

Definition NotAllowedError : Js.Error :=
  Js.mkError (Js.lit "NotAllowedError") (Js.lit "Permission denied").

Definition cam0 : GestureControl.MediaDeviceInfo :=
  GestureControl.mkDevice (Js.lit "videoinput") (Js.lit "cam0").

Definition mic0 : GestureControl.MediaDeviceInfo :=
  GestureControl.mkDevice (Js.lit "audioinput") (Js.lit "mic0").

(** Strategies 1 and 2 fail; one video input can be enumerated and opens
    when asked for by identity. *)
Definition onlyByIdentity : GestureControl.MediaDevices :=
  GestureControl.mkMediaDevices
    (fun c => match c with
              | GestureControl.ExactDevice id =>
                  if Js.eqb id (Js.lit "cam0") then Js.Normal 7%nat
                  else Js.Throw NotAllowedError
              | _ => Js.Throw NotAllowedError
              end)
    (Js.Normal [mic0; cam0]).

(** Every request is refused for lack of permission. *)
Definition refused : GestureControl.MediaDevices :=
  GestureControl.mkMediaDevices
    (fun _ => Js.Throw NotAllowedError)
    (Js.Normal [mic0; cam0]).

(* ------------------------------------------------------------------ *)
(** *** GestureSampler *)
(* ------------------------------------------------------------------ *)

(** The busy flag and the pending calls agree, and the callback of the
    interval has closed over the current state. *)
Definition singleFlight (st : GestureControl.State) : Prop :=
  GestureControl.closure st
  = (GestureControl.isCameraReady st, GestureControl.isProcessing st)
  /\ ((GestureControl.isProcessing st = false
       /\ GestureControl.inFlight st = [])
      \/ (GestureControl.isProcessing st = true
          /\ exists image, GestureControl.inFlight st = [image])).

(** An operation that leaves the sampler alone. *)
Definition sameSampler (st st' : GestureControl.State) : Prop :=
  GestureControl.isProcessing st' = GestureControl.isProcessing st
  /\ GestureControl.inFlight st' = GestureControl.inFlight st.

(* ------------------------------------------------------------------ *)
(** *** GestureClassifierClient *)
(* ------------------------------------------------------------------ *)

(** The three values of the enum. *)
Definition isGesture (v : Js.Value) : Prop :=
  exists g : GestureType, v = GestureType_value g.

(** A string literal of JSON: the text between two quotation marks. *)
Definition quoted (s : string) : Js.jsstring := [34%N] ++ Js.lit s ++ [34%N].

(** The payload the schema asks for: an object with the one property
    [gesture]. *)
Definition labelPayload (label : string) : Js.jsstring :=
  Js.lit "{" ++ quoted "gesture" ++ Js.lit ": " ++ quoted label ++ Js.lit "}".

(** The same between Markdown fences. *)
Definition fenced (body : Js.jsstring) : Js.jsstring :=
  Js.lit "```json" ++ [10%N] ++ body ++ [10%N] ++ Js.lit "```".

(** A classifier that answers every image with the same text. *)
Definition answering (text : option Js.jsstring)
  : Js.jsstring -> Js.Completion (option Js.jsstring) :=
  fun _ => Js.Normal text.

(** A classifier whose transport fails. *)
Definition unreachable : Js.jsstring -> Js.Completion (option Js.jsstring) :=
  fun _ => Js.Throw (Js.mkError (Js.lit "TypeError") (Js.lit "Failed to fetch")).

Definition someKey : option Js.jsstring := Some (Js.lit "key").

Definition someImage : Js.jsstring := Js.lit "data:image/jpeg;base64,/9j/4AAQ".

(** The camera starts through the third strategy, its metadata arrive, and
    a first tick captures a frame of 320 by 240. *)
Definition firstTick : list GestureControl.Event :=
  [GestureControl.Start onlyByIdentity;
   GestureControl.LoadedMetadata;
   GestureControl.Tick 320 240 (Js.Normal someImage)].

(* ------------------------------------------------------------------ *)
(** *** Further notions *)
(* ------------------------------------------------------------------ *)

(** The discs a frame paints for the particles [ps] it has just moved, in
    order, when the context enters the loop with shadow blur [blur] and
    shadow colour [glow]: the shadow set after one disc is the shadow of
    the next. *)
Fixpoint fills (isFlowerMode : bool) (blur : R) (glow : Color)
    (ps : list Particle) : list Canvas.Fill :=
  match ps with
  | [] => []
  | p :: rest =>
      Canvas.mkFill [Canvas.mkArc (x p) (y p) (size p) 0 (PI * 2)]
                    (color p) blur glow
      :: fills isFlowerMode
               (if isFlowerMode then 10 else 0)
               (if isFlowerMode then color p else glow)
               rest
  end.


(** The camera side of the component is consistent: the video element
    shows the stream the component holds, the source is ready only with a
    stream, and an error is shown only without one. *)
Definition cameraConsistent (st : GestureControl.State) : Prop :=
  (forall video, GestureControl.videoRef st = Some video ->
                 GestureControl.srcObject video = GestureControl.streamRef st)
  /\ (GestureControl.isCameraReady st = true ->
      GestureControl.streamRef st <> None)
  /\ (GestureControl.streamRef st <> None -> GestureControl.error st = None).

(** Whether Shift is held after the key events of [es], when it was
    [start] before. *)
Definition lastShift (es : list App.Event) (start : bool) : bool :=
  fold_left (fun acc e =>
               match e with
               | App.KeyDown key => if Js.eqb key (Js.lit "Shift") then true else acc
               | App.KeyUp key => if Js.eqb key (Js.lit "Shift") then false else acc
               | App.GestureDetected _ => acc
               end)
            es start.

(** A code unit that stands for itself inside a JSON string. *)
Definition plain (c : N) : Prop := (c <> 34 /\ c <> 92 /\ 32 <= c)%N.

(** The text [{"gesture": "<label>"}] for any label. *)
Definition payloadOf (label : Js.jsstring) : Js.jsstring :=
  Js.lit "{" ++ quoted "gesture" ++ Js.lit ": " ++ [34%N] ++ label ++ [34%N]
  ++ Js.lit "}".

(** A text between Markdown fences, with or without the language tag, and
    with white space [ws1] after the opening fence and [ws2] before the
    closing one. *)
Definition fence (tagged : bool) (ws1 body ws2 : Js.jsstring) : Js.jsstring :=
  Js.lit "```" ++ (if tagged then Js.lit "json" else []) ++ ws1 ++ body ++ ws2
  ++ Js.lit "```".

(* ================================================================== *)
(** * Properties *)
(* ================================================================== *)

(* ------------------------------------------------------------------ *)
(** ** GestureState (App.tsx) *)
(* ------------------------------------------------------------------ *)

Section GestureState.

Import App.

Lemma run_app_snoc (es : list Event) (e : Event) (st : State) :
  run (es ++ [e]) st = handle (run es st) e.
Proof. unfold run. rewrite fold_left_app. reflexivity. Qed.

Lemma lastPublished_snoc (es : list Event) (e : Event) (g : GestureType) :
  lastPublished (es ++ [e]) g =
  match e with GestureDetected g' => g' | _ => lastPublished es g end.
Proof. unfold lastPublished. rewrite fold_left_app. reflexivity. Qed.

(** Key events never touch the camera label: after any events it is the
    last label the sampler published. *)
Lemma cameraGesture_run (es : list Event) (st : State) :
  cameraGesture (run es st) = lastPublished es (cameraGesture st).
Proof.
  induction es as [| e es IH] using rev_ind; [reflexivity |].
  rewrite run_app_snoc, lastPublished_snoc.
  destruct e as [key | key | g]; simpl;
    unfold handleKeyDown, handleKeyUp;
    try destruct (Js.eqb key _); simpl; auto.
Qed.

(** C5. The authoritative gesture is [FIST] while the override is held and
    the camera label otherwise, for every flag and label; after any events,
    holding Shift gives [FIST] whatever the camera published, and releasing
    it gives exactly the last published camera label. *)
Theorem currentGesture_override :
  (forall (override : bool) (cameraLabel : GestureType),
      currentGesture (mkState cameraLabel override) =
      if override then FIST else cameraLabel)
  /\ (forall (es : list Event) (st : State),
         currentGesture (handle (run es st) (KeyDown (Js.lit "Shift"))) = FIST)
  /\ (forall (es : list Event) (st : State),
         currentGesture (handle (run es st) (KeyUp (Js.lit "Shift")))
         = lastPublished es (cameraGesture st)).
Proof.
  split; [| split].
  - intros [|] g; reflexivity.
  - intros es st. reflexivity.
  - intros es st. cbn. apply cameraGesture_run.
Qed.

End GestureState.

(* ------------------------------------------------------------------ *)
(** ** ParticleEngine: the flower target *)
(* ------------------------------------------------------------------ *)

Section FlowerTarget.

Import ParticleCanvas.

(** C6. [calculateFlowerTarget] is the point of the rose curve
    r = scale cos(5 theta) around the centre, with theta = (index / total) 8 pi
    and scale = 0.35 min(width, height); over a population of [total]
    particles the angle grows by equal steps from 0 and stays below four
    full turns, which index [total] would reach. *)
Theorem calculateFlowerTarget_rose :
  (forall index total centerX centerY w h : R,
      let theta := sweepAngle index total in
      let scale := 0.35 * Rmin w h in
      calculateFlowerTarget index total centerX centerY w h =
      Point.mk (centerX + scale * cos (5 * theta) * cos theta)
               (centerY + scale * cos (5 * theta) * sin theta))
  /\ (forall total : nat, (0 < total)%nat ->
        sweepAngle 0 (INR total) = 0
        /\ sweepAngle (INR total) (INR total) = 4 * (2 * PI)
        /\ (forall i : nat,
               sweepAngle (INR (S i)) (INR total) - sweepAngle (INR i) (INR total)
               = 4 * (2 * PI) / INR total)
        /\ (forall i : nat, (i < total)%nat ->
               0 <= sweepAngle (INR i) (INR total) < 4 * (2 * PI))).
Proof.
  split.
  - intros index total centerX centerY w h theta scale.
    unfold calculateFlowerTarget, theta, scale, sweepAngle.
    replace (index / total * PI * 2 * 4) with (index / total * (8 * PI)) by ring.
    f_equal; ring.
  - intros total Htotal.
    assert (Hpos : 0 < INR total) by (apply lt_0_INR; exact Htotal).
    assert (Hpi := PI_RGT_0).
    unfold sweepAngle. repeat split.
    + field. lra.
    + field. lra.
    + intro i. rewrite S_INR. field. lra.
    + apply Rmult_le_pos; [| lra].
      apply Rmult_le_pos; [apply pos_INR |].
      left. apply Rinv_0_lt_compat. exact Hpos.
    + assert (Hi : INR i < INR total) by (apply lt_INR; assumption).
      assert (Hq : INR i / INR total < 1).
      { apply Rmult_lt_reg_r with (r := INR total); [exact Hpos |].
        unfold Rdiv. rewrite Rmult_assoc, Rinv_l by lra. lra. }
      nra.
Qed.

(** The population of the engine: 1200 particles, particle 300. *)
Lemma calculateFlowerTarget_rose_witness :
  0 <= sweepAngle (INR 300) (INR 1200) < 4 * (2 * PI).
Proof.
  apply (proj2 (proj2 (proj2 (proj2 calculateFlowerTarget_rose 1200%nat
                                            ltac:(lia))))).
  lia.
Defined.

End FlowerTarget.

(* ------------------------------------------------------------------ *)
(** ** ParticleEngine: one frame *)
(* ------------------------------------------------------------------ *)

Section OneFrame.

Import ParticleCanvas.

Variables (isFlowerMode : bool) (now : R) (rand : nat -> R) (mouse : Point.t).

Lemma update_size (d : Dimensions) (total i : nat) (p : Particle) :
  size (update isFlowerMode now rand mouse d total i p) = size p.
Proof. unfold update. destruct isFlowerMode; reflexivity. Qed.

Lemma update_dimensions_eta (d : Dimensions) (total i : nat) (p : Particle) :
  update isFlowerMode now rand mouse (mkDimensions (width d) (height d)) total i p
  = update isFlowerMode now rand mouse d total i p.
Proof. destruct d; reflexivity. Qed.

Lemma updateFrom_dimensions_eta (d : Dimensions) (total : nat) (ps : list Particle) :
  forall i,
    updateFrom isFlowerMode now rand mouse (mkDimensions (width d) (height d)) total i ps
    = updateFrom isFlowerMode now rand mouse d total i ps.
Proof. destruct d; reflexivity. Qed.

Lemma updateFrom_length (d : Dimensions) (total : nat) (ps : list Particle) :
  forall i, List.length (updateFrom isFlowerMode now rand mouse d total i ps)
            = List.length ps.
Proof. induction ps as [| p ps IH]; intro i; simpl; [| rewrite IH]; reflexivity. Qed.

Lemma updateFrom_nth_error (d : Dimensions) (total : nat) (ps : list Particle) :
  forall i k,
    nth_error (updateFrom isFlowerMode now rand mouse d total i ps) k
    = option_map (update isFlowerMode now rand mouse d total (i + k))
                 (nth_error ps k).
Proof.
  induction ps as [| p ps IH]; intros i k.
  - destruct k; reflexivity.
  - destruct k as [| k]; simpl.
    + rewrite Nat.add_0_r. reflexivity.
    + rewrite IH. replace (S i + k)%nat with (i + S k)%nat by lia. reflexivity.
Qed.

Lemma updateFrom_drawable (d : Dimensions) (total : nat) (ps : list Particle) :
  drawable ps ->
  forall i, drawable (updateFrom isFlowerMode now rand mouse d total i ps).
Proof.
  unfold drawable. induction 1 as [| p ps Hp Hps IH]; intro i; simpl.
  - constructor.
  - constructor; [rewrite update_size; exact Hp | apply IH].
Qed.

Lemma draw_Normal (p : Particle) (c : Canvas.Context2D) :
  0 <= size p -> exists c', draw isFlowerMode p c = Js.Normal c'.
Proof.
  intro Hp. unfold draw, Canvas.arc.
  destruct (Rlt_dec (size p) 0) as [Hneg | _]; [lra |].
  simpl. eexists. reflexivity.
Qed.

(** A negative radius is the one thing that makes a frame throw. *)
Lemma draw_Throw (p : Particle) (c : Canvas.Context2D) :
  size p < 0 -> draw isFlowerMode p c = Js.Throw Js.IndexSizeError.
Proof.
  intro Hp. unfold draw, Canvas.arc.
  destruct (Rlt_dec (size p) 0) as [_ | Hge]; [reflexivity | lra].
Qed.

Lemma forEach_Normal (d : Dimensions) (total : nat) (ps : list Particle) :
  drawable ps ->
  forall i c, exists c',
    forEach isFlowerMode now rand mouse d total i ps c
    = Js.Normal (updateFrom isFlowerMode now rand mouse d total i ps, c').
Proof.
  unfold drawable. induction 1 as [| p ps Hp Hps IH]; intros i c; simpl.
  - eexists. reflexivity.
  - destruct (draw_Normal (update isFlowerMode now rand mouse d total i p) c)
      as [c1 Hc1]; [rewrite update_size; exact Hp |].
    rewrite Hc1. simpl.
    destruct (IH (S i) c1) as [c2 Hc2]. rewrite Hc2. simpl.
    eexists. reflexivity.
Qed.

End OneFrame.

Section Animate.

Import ParticleCanvas.

Lemma animate_Normal (now : R) (rand : nat -> R) (st : Component)
    (c : Canvas.Context2D) :
  ctx st = Some c ->
  drawable (particlesRef st) ->
  exists c',
    animate now rand st
    = Js.Normal (mkComponent (Some c') (stepped now rand st) (mouseRef st)
                             (dimensionsRef st) (gesture st)).
Proof.
  intros Hc Hd. unfold animate. rewrite Hc.
  destruct (forEach_Normal (GestureType_eqb (gesture st) FIST) now rand
              (mouseRef st)
              (mkDimensions (width (dimensionsRef st)) (height (dimensionsRef st)))
              (List.length (particlesRef st)) (particlesRef st) Hd 0
              (Canvas.clearRect c))
    as [c' Hc'].
  rewrite Hc'. simpl. rewrite updateFrom_dimensions_eta.
  eexists. reflexivity.
Qed.

Lemma animate_without_context (now : R) (rand : nat -> R) (st : Component) :
  ctx st = None -> animate now rand st = Js.Normal st.
Proof. intro Hc. unfold animate. rewrite Hc. reflexivity. Qed.

Lemma stepped_nth_error (now : R) (rand : nat -> R) (st : Component) (i : nat) :
  nth_error (stepped now rand st) i
  = option_map (update (GestureType_eqb (gesture st) FIST) now rand (mouseRef st)
                       (dimensionsRef st) (List.length (particlesRef st)) i)
               (nth_error (particlesRef st) i).
Proof. unfold stepped. rewrite updateFrom_nth_error. reflexivity. Qed.

End Animate.

(* ------------------------------------------------------------------ *)
(** ** ParticleEngine: open mode and the edge wrap *)
(* ------------------------------------------------------------------ *)

Section OpenMode.

Import ParticleCanvas.

Ltac by_cases :=
  repeat match goal with
         | |- context [Rlt_dec ?a ?b] => destruct (Rlt_dec a b)
         | |- context [Rgt_dec ?a ?b] => destruct (Rgt_dec a b)
         | |- context [Rle_dec ?a ?b] => destruct (Rle_dec a b)
         end.

Lemma wrap_closed (bound c : R) : 0 <= bound -> 0 <= wrap bound c <= bound.
Proof. intro Hb. unfold wrap. by_cases; lra. Qed.

(** A coordinate that went below zero lands on the bound itself. *)
Lemma wrap_negative (bound c : R) : 0 <= bound -> c < 0 -> wrap bound c = bound.
Proof. intros Hb Hc. unfold wrap. by_cases; lra. Qed.

Lemma limit_bounded (v : R) : - maxSpeed <= limit v <= maxSpeed.
Proof.
  unfold limit, maxSpeed, Rmin. destruct (Rle_dec v 2);
    unfold Rmax; by_cases; lra.
Qed.

Lemma limit_inside (v : R) : - maxSpeed <= v <= maxSpeed -> limit v = v.
Proof.
  unfold limit, maxSpeed, Rmin. intro Hv. destruct (Rle_dec v 2);
    unfold Rmax; by_cases; lra.
Qed.

Lemma openUpdate_onSurface (now r0 r1 : R) (mouse : Point.t) (d : Dimensions)
    (i : nat) (p : Particle) :
  0 <= width d -> 0 <= height d ->
  onSurface d (openUpdate now r0 r1 mouse d i p).
Proof.
  intros Hw Hh. unfold onSurface, openUpdate. simpl.
  split; apply wrap_closed; assumption.
Qed.

(** C1, as the code has it. In open mode (the gesture is not [FIST]), on a
    surface of non-negative width and height, a frame over drawable
    particles completes, and afterwards every particle lies in the closed
    rectangle: 0 <= x <= width and 0 <= y <= height. A coordinate that
    went below zero sits on the bound itself. *)
Theorem open_mode_wrap_closed_bounds
    (now : R) (rand : nat -> R) (st : Component) (c : Canvas.Context2D) :
  ctx st = Some c ->
  gesture st <> FIST ->
  0 <= width (dimensionsRef st) ->
  0 <= height (dimensionsRef st) ->
  drawable (particlesRef st) ->
  exists st',
    animate now rand st = Js.Normal st'
    /\ Forall (onSurface (dimensionsRef st)) (particlesRef st').
Proof.
  intros Hc Hg Hw Hh Hd.
  destruct (animate_Normal now rand st c Hc Hd) as [c' Hrun].
  eexists. split; [exact Hrun |]. simpl.
  assert (Hmode : GestureType_eqb (gesture st) FIST = false)
    by (destruct (gesture st); [congruence | reflexivity | reflexivity]).
  unfold stepped. rewrite Hmode.
  generalize (List.length (particlesRef st)) as total.
  generalize 0%nat as i.
  induction (particlesRef st) as [| p ps IH]; intros i total; simpl.
  - constructor.
  - constructor; [| apply IH; inversion Hd; assumption].
    unfold update. apply openUpdate_onSurface; assumption.
Qed.

Lemma open_mode_wrap_closed_bounds_witness :
  exists st',
    animate 0 calm leftEdge = Js.Normal st'
    /\ Forall (onSurface (dimensionsRef leftEdge)) (particlesRef st').
Proof.
  apply (@open_mode_wrap_closed_bounds 0 calm leftEdge blankContext).
  - reflexivity.
  - discriminate.
  - simpl. lra.
  - simpl. lra.
  - repeat constructor. simpl. lra.
Defined.

(** C1, as stated, fails: the particle of [leftEdge] steps to x = -1 and
    the wrap puts it at x = width = 100, which is not below the bound. *)
Lemma open_mode_wrap_reaches_bound :
  gesture leftEdge = OPEN
  /\ exists st',
      animate 0 calm leftEdge = Js.Normal st'
      /\ exists p,
          nth_error (particlesRef st') 0 = Some p
          /\ x p = width (dimensionsRef st')
          /\ ~ x p < width (dimensionsRef st').
Proof.
  split; [reflexivity |].
  destruct (@animate_Normal 0 calm leftEdge blankContext) as [c' Hrun].
  - reflexivity.
  - repeat constructor. simpl. lra.
  - eexists. split; [exact Hrun |]. simpl.
    eexists. split; [reflexivity |].
    assert (Hx : wrap 100 (0 + limit (-1 + (calm 0%nat - 0.5) * 0.1)) = 100).
    { unfold calm. rewrite limit_inside by (unfold maxSpeed; lra).
      apply wrap_negative; lra. }
    simpl. rewrite Hx. split; [reflexivity | lra].
Qed.

End OpenMode.

(* ------------------------------------------------------------------ *)
(** ** ParticleEngine: flower mode *)
(* ------------------------------------------------------------------ *)

Section FlowerMode.

Import ParticleCanvas.


Lemma animate_flower (now : R) (rand : nat -> R) (st : Component)
    (c : Canvas.Context2D) :
  ctx st = Some c -> gesture st = FIST -> drawable (particlesRef st) ->
  exists st',
    animate now rand st = Js.Normal st'
    /\ sameSetting st st'
    /\ forall i p,
        nth_error (particlesRef st) i = Some p ->
        nth_error (particlesRef st') i
        = Some (flowerUpdate now (mouseRef st) (dimensionsRef st)
                             (List.length (particlesRef st)) i p).
Proof.
  intros Hc Hg Hd.
  destruct (animate_Normal now rand st c Hc Hd) as [c' Hrun].
  eexists. split; [exact Hrun |]. split.
  - unfold sameSetting; simpl. repeat split; eauto.
    + apply updateFrom_length.
    + apply updateFrom_drawable. exact Hd.
  - intros i p Hp. simpl. rewrite stepped_nth_error, Hp, Hg. reflexivity.
Qed.

Lemma flowerUpdate_step (now : R) (mouse : Point.t) (d : Dimensions)
    (total i : nat) (p : Particle) :
  let t := calculateFlowerTarget (INR i) (INR total) (Point.x mouse)
                                 (Point.y mouse) (width d) (height d) in
  let p' := flowerUpdate now mouse d total i p in
  vx p' = 0.05 * (Point.x t - x p)
  /\ vy p' = 0.05 * (Point.y t - y p)
  /\ x p' = x p + vx p'
  /\ y p' = y p + vy p'
  /\ Point.x t - x p' = 0.95 * (Point.x t - x p)
  /\ Point.y t - y p' = 0.95 * (Point.y t - y p).
Proof. unfold flowerUpdate; simpl. repeat split; lra. Qed.








End FlowerMode.

Section FlowerModeAtTheEdge.

Import ParticleCanvas.


(** The target of the only particle of [rightEdge] is (135, 50). *)
Lemma rightEdge_target : targetOf rightEdge 0 = Point.mk 135 50.
Proof.
  unfold targetOf, calculateFlowerTarget; simpl.
  replace (0 / 1 * PI * 2 * 4) with 0 by (unfold Rdiv; ring).
  rewrite Rmult_0_r, cos_0, sin_0.
  assert (Hmin : Rmin 100 100 = 100) by (apply Rmin_left; lra).
  rewrite Hmin. f_equal; lra.
Qed.

(** C10. In flower mode a frame moves every particle by 0.05 times its
    displacement to the target and applies nothing else to the position,
    wherever that lands. With the pointer on the right edge of a 100 by 100
    surface the target of the particle of [rightEdge] is (135, 50): the
    particle sits on it, a frame leaves it there, and x = 135 is not below
    the width. *)
Theorem flower_mode_no_wrap :
  (forall (now : R) (rand : nat -> R) (st : Component) (c : Canvas.Context2D),
      ctx st = Some c -> gesture st = FIST -> drawable (particlesRef st) ->
      exists st',
        animate now rand st = Js.Normal st'
        /\ forall i p,
            nth_error (particlesRef st) i = Some p ->
            exists p',
              nth_error (particlesRef st') i = Some p'
              /\ x p' = x p + 0.05 * (Point.x (targetOf st i) - x p)
              /\ y p' = y p + 0.05 * (Point.y (targetOf st i) - y p))
  /\ (forall (now : R) (rand : nat -> R),
         exists st' p',
           animate now rand rightEdge = Js.Normal st'
           /\ particlesRef rightEdge = [particleAt 135 50 0 0]
           /\ particlesRef st' = [p']
           /\ x p' = 135 /\ y p' = 50
           /\ ~ x p' < width (dimensionsRef rightEdge)).
Proof.
  split.
  - intros now rand st c Hc Hg Hd.
    destruct (animate_flower now rand st c Hc Hg Hd) as (st' & Hrun & _ & Hstep).
    exists st'. split; [exact Hrun |].
    intros i p Hp. eexists. split; [apply Hstep; exact Hp |].
    destruct (flowerUpdate_step now (mouseRef st) (dimensionsRef st)
                (List.length (particlesRef st)) i p)
      as (Hvx & Hvy & Hpx & Hpy & _).
    fold (targetOf st i) in Hvx, Hvy.
    rewrite Hpx, Hpy, Hvx, Hvy. split; reflexivity.
  - intros now rand.
    destruct (@animate_flower now rand rightEdge blankContext)
      as (st' & Hrun & Hsame & Hstep);
      [reflexivity | reflexivity | repeat constructor; simpl; lra |].
    specialize (Hstep 0%nat (particleAt 135 50 0 0) eq_refl).
    destruct Hsame as (_ & _ & _ & _ & Hlen & _).
    destruct (particlesRef st') as [| p' [| q rest]] eqn:Hps;
      simpl in Hlen; try discriminate.
    exists st', p'. split; [exact Hrun |]. split; [reflexivity |].
    split; [exact Hps |].
    cbn [nth_error] in Hstep. injection Hstep as Hp'.
    pose proof (flowerUpdate_step now (Point.mk 100 50) (mkDimensions 100 100)
                  1 0 (particleAt 135 50 0 0)) as Hfix.
    cbv zeta in Hfix. rewrite <- Hp' in Hfix.
    change (calculateFlowerTarget _ _ _ _ _ _) with (targetOf rightEdge 0) in Hfix.
    rewrite rightEdge_target in Hfix.
    destruct Hfix as (Hvx & Hvy & Hpx & Hpy & _).
    simpl in Hvx, Hvy, Hpx, Hpy. simpl width. lra.
Qed.

Lemma flower_mode_no_wrap_witness :
  exists st',
    animate 0 calm rightEdge = Js.Normal st'
    /\ forall i p,
        nth_error (particlesRef rightEdge) i = Some p ->
        exists p',
          nth_error (particlesRef st') i = Some p'
          /\ x p' = x p + 0.05 * (Point.x (targetOf rightEdge i) - x p)
          /\ y p' = y p + 0.05 * (Point.y (targetOf rightEdge i) - y p).
Proof.
  apply (proj1 flower_mode_no_wrap 0 calm rightEdge blankContext).
  - reflexivity.
  - reflexivity.
  - repeat constructor. simpl. lra.
Defined.

End FlowerModeAtTheEdge.

(* ------------------------------------------------------------------ *)
(** ** ParticleEngine: a surface without area *)
(* ------------------------------------------------------------------ *)

Section ZeroArea.

Import ParticleCanvas.







End ZeroArea.

(* ------------------------------------------------------------------ *)
(** ** ParticleEngine: the population *)
(* ------------------------------------------------------------------ *)

Section Population.

Import ParticleCanvas.

Lemma initParticles_length (rand : nat -> R) (w h : R) :
  List.length (initParticles rand w h) = particleCount.
Proof. unfold initParticles. rewrite length_map, length_seq. reflexivity. Qed.

Lemma initParticles_drawable (rand : nat -> R) (w h : R) :
  (forall k, 0 <= rand k < 1) -> drawable (initParticles rand w h).
Proof.
  intro Hrand. unfold drawable, initParticles.
  apply Forall_forall. intros p Hin.
  apply in_map_iff in Hin. destruct Hin as (i & <- & _).
  unfold initParticle. cbn [size].
  specialize (Hrand (7 * i + 4)%nat). lra.
Qed.

(** A mounted component with a context owns a population straight from
    [initParticles]. *)
Lemma effect_initializes (g : GestureType) (w h : R) (rand : nat -> R)
    (c : Canvas.Context2D) :
  particlesRef (effect g w h rand (initial (Some c) w h)) = initParticles rand w h.
Proof. reflexivity. Qed.

Lemma handleResize_keeps (w h : R) (rand : nat -> R) (st : Component) :
  particlesRef st <> [] ->
  particlesRef (handleResize w h rand st) = particlesRef st.
Proof.
  intro Hne. unfold handleResize. simpl.
  destruct (particlesRef st); [congruence | reflexivity].
Qed.

(** No event creates, destroys or spoils a particle of a non-empty
    drawable population, and none throws. *)
Lemma handle_population (e : Event) (st : Component) :
  particlesRef st <> [] -> drawable (particlesRef st) ->
  exists st',
    handle e st = Js.Normal st'
    /\ List.length (particlesRef st') = List.length (particlesRef st)
    /\ drawable (particlesRef st').
Proof.
  intros Hne Hd.
  destruct e as [g w h rand | w h rand | cx cy | now rand]; simpl.
  - eexists. split; [reflexivity |]. unfold effect.
    destruct (ctx st); simpl; [| auto].
    destruct (particlesRef st); [congruence | simpl; auto].
  - eexists. split; [reflexivity |].
    destruct (ctx st); simpl; [| auto].
    destruct (particlesRef st); [congruence | simpl; auto].
  - eexists. split; [reflexivity |]. destruct (ctx st); simpl; auto.
  - destruct (ctx st) as [c |] eqn:Hc.
    + destruct (animate_Normal now rand st c Hc Hd) as [c' Hrun].
      eexists. split; [exact Hrun |]. simpl. split.
      * apply updateFrom_length.
      * apply updateFrom_drawable. exact Hd.
    + rewrite (animate_without_context now rand st Hc).
      eexists. split; [reflexivity |]. auto.
Qed.

Lemma run_population (es : list Event) :
  forall st : Component,
    particlesRef st <> [] -> drawable (particlesRef st) ->
    exists st',
      run es st = Js.Normal st'
      /\ List.length (particlesRef st') = List.length (particlesRef st).
Proof.
  induction es as [| e es IH]; intros st Hne Hd; simpl.
  - exists st. split; reflexivity.
  - destruct (handle_population e st Hne Hd) as (st1 & Hrun1 & Hlen1 & Hd1).
    rewrite Hrun1. simpl.
    destruct (IH st1) as (st' & Hrun & Hlen); [| exact Hd1 |].
    + intro Hnil. rewrite Hnil in Hlen1. simpl in Hlen1.
      destruct (particlesRef st); [congruence | discriminate].
    + exists st'. split; [exact Hrun | congruence].
Qed.

(** C9. A population made by [initParticles] (every draw of [Math.random]
    in [0, 1)) goes through any sequence of frames, gesture changes, pointer
    moves and resizes without an exception, and the number of particles
    stays what it was: 1200. *)
Theorem particle_count_invariant
    (rand0 : nat -> R) (w h : R) (st : Component) (es : list Event) :
  (forall k, 0 <= rand0 k < 1) ->
  particlesRef st = initParticles rand0 w h ->
  exists st',
    run es st = Js.Normal st'
    /\ List.length (particlesRef st') = List.length (particlesRef st)
    /\ List.length (particlesRef st') = particleCount.
Proof.
  intros Hrand Hinit.
  destruct (run_population es st) as (st' & Hrun & Hlen).
  - rewrite Hinit. intro Hnil.
    apply (f_equal (@List.length Particle)) in Hnil.
    rewrite initParticles_length in Hnil. discriminate.
  - rewrite Hinit. apply initParticles_drawable. exact Hrand.
  - exists st'. split; [exact Hrun |]. split; [exact Hlen |].
    rewrite Hlen, Hinit. apply initParticles_length.
Qed.

Lemma particle_count_invariant_witness :
  exists st',
    run switching mounted = Js.Normal st'
    /\ List.length (particlesRef st') = List.length (particlesRef mounted)
    /\ List.length (particlesRef st') = particleCount.
Proof.
  apply (@particle_count_invariant calm 800 600 mounted switching).
  - intro k. unfold calm. lra.
  - reflexivity.
Defined.

End Population.

(* ------------------------------------------------------------------ *)
(** ** CameraSource (GestureControl.tsx) *)
(* ------------------------------------------------------------------ *)

Section Strings.

Import Js.

Lemma eqb_eq (a b : jsstring) : eqb a b = true <-> a = b.
Proof.
  revert b. induction a as [| c a IH]; intros [| d b]; simpl;
    try (split; [discriminate | discriminate]); [tauto |].
  rewrite andb_true_iff, N.eqb_eq, IH.
  split; [intros [-> ->]; reflexivity | intro H; injection H; auto].
Qed.

Lemma eqb_refl (a : jsstring) : eqb a a = true.
Proof. apply eqb_eq. reflexivity. Qed.

Lemma includes_empty (c : N) (needle : jsstring) : includes [] (c :: needle) = false.
Proof. reflexivity. Qed.

End Strings.

Section CameraSource.

Import Js GestureControl.

Lemma stopCamera_fields (st : State) :
  videoRef (stopCamera st)
  = match videoRef st with
    | Some v => Some (mkVideo None (onloadedmetadata v) (playing v))
    | None => None
    end
  /\ streamRef (stopCamera st) = None
  /\ isCameraReady (stopCamera st) = false
  /\ requests (stopCamera st) = requests st.
Proof.
  unfold stopCamera.
  destruct st as [v c s r e p cl rq sp inf pub]. simpl.
  destruct s; destruct v; simpl; repeat split; reflexivity.
Qed.

Ltac clash H :=
  let n := fresh "n" in
  let Hin := fresh "Hin" in
  let Hn := fresh "Hn" in
  destruct H as (n & Hin & Hn); simpl in Hin;
  repeat (destruct Hin as [<- | Hin]; [| ]);
  try contradiction;
  try (match goal with
       | E : name ?e = _ |- _ => rewrite E in Hn; vm_compute in Hn; discriminate
       end);
  try (match goal with
       | E : eqb (name ?e) _ = false |- _ =>
           rewrite Hn, eqb_refl in E; discriminate
       end).

Ltac known e :=
  exfalso;
  match goal with
  | H : ~ named e knownNames, E : name e = lit ?s |- _ =>
      apply H; exists s; split; [simpl; tauto | exact E]
  end.

(** [handleError] shows the message the taxonomy gives the error. *)
Lemma handleError_taxonomy (e : Error) (st : State) :
  exists msg, error (handleError e st) = Some msg /\ taxonomy e msg.
Proof.
  unfold handleError. eexists. split; [reflexivity |].
  unfold taxonomy, msgPermission, msgInUse, msgNotFound, msgHardware, msgGeneric.
  destruct (eqb (name e) (lit "NotAllowedError")) eqn:E1;
    [apply eqb_eq in E1; simpl;
     repeat split; intros; try reflexivity; try known e;
     match goal with H : named e _ |- _ => clash H end |].
  destruct (eqb (name e) (lit "PermissionDeniedError")) eqn:E2;
    [apply eqb_eq in E2; simpl;
     repeat split; intros; try reflexivity; try known e;
     match goal with H : named e _ |- _ => clash H end |].
  destruct (eqb (name e) (lit "NotReadableError")) eqn:E3;
    [apply eqb_eq in E3; simpl;
     repeat split; intros; try reflexivity; try known e;
     match goal with H : named e _ |- _ => clash H end |].
  destruct (eqb (name e) (lit "TrackStartError")) eqn:E4;
    [apply eqb_eq in E4; simpl;
     repeat split; intros; try reflexivity; try known e;
     match goal with H : named e _ |- _ => clash H end |].
  destruct (eqb (name e) (lit "NotFoundError")) eqn:E5;
    [apply eqb_eq in E5; simpl;
     repeat split; intros; try reflexivity; try known e;
     match goal with H : named e _ |- _ => clash H end |].
  destruct (eqb (name e) (lit "DevicesNotFoundError")) eqn:E6;
    [apply eqb_eq in E6; simpl;
     repeat split; intros; try reflexivity; try known e;
     match goal with H : named e _ |- _ => clash H end |].
  cbn [orb].
  repeat split; intros;
    try (match goal with H : named e _ |- _ => clash H end).
  - destruct (message e) as [| c m]; [discriminate |].
    match goal with H : includes _ _ = true |- _ => rewrite H end. reflexivity.
  - match goal with H : includes _ _ = false |- _ => rewrite H end.
    rewrite andb_false_r. reflexivity.
Qed.

Lemma handleError_fields (e : Error) (st : State) :
  streamRef (handleError e st) = streamRef st
  /\ isCameraReady (handleError e st) = isCameraReady st
  /\ requests (handleError e st) = requests st
  /\ videoRef (handleError e st) = videoRef st.
Proof. repeat split; reflexivity. Qed.

(** C3. [startCamera] follows the acquisition protocol: constrained
    request, then unconstrained request, then the first enumerated video
    input by identity, and not one request past the first success. On
    success the stream is bound, no error is shown and the metadata event
    marks the source ready. Only when the third strategy fails too is an
    error shown, the one the taxonomy gives the final failure, and the
    source stays not ready. *)
Theorem startCamera_fallback (md : MediaDevices) (st : State) (v : Video) :
  videoRef st = Some v ->
  exists reqs result,
    Acquisition md reqs result
    /\ requests (startCamera md st) = requests st ++ reqs
    /\ match result with
       | Normal s =>
           streamRef (startCamera md st) = Some s
           /\ error (startCamera md st) = None
           /\ isCameraReady (loadedmetadata (startCamera md st)) = true
       | Throw e =>
           streamRef (startCamera md st) = None
           /\ isCameraReady (startCamera md st) = false
           /\ isCameraReady (loadedmetadata (startCamera md st)) = false
           /\ exists msg,
               error (startCamera md st) = Some msg /\ taxonomy e msg
       end.
Proof.
  intro Hv.
  destruct (stopCamera_fields st) as (Hvideo & Hstream & Hready & Hreqs).
  rewrite Hv in Hvideo.
  unfold startCamera.
  set (st0 := setError None (stopCamera st)).
  assert (H0 : videoRef st0 = Some (mkVideo None (onloadedmetadata v) (playing v))
               /\ streamRef st0 = None /\ isCameraReady st0 = false
               /\ requests st0 = requests st)
    by (unfold st0; simpl; auto).
  clearbody st0. clear Hvideo Hstream Hready Hreqs.
  destruct st0 as [v0 c0 s0 r0 e0 p0 cl0 rq0 sp0 inf0 pub0].
  simpl in H0. destruct H0 as (-> & -> & -> & ->).
  destruct (getUserMedia md UserFacingLowRes) as [s1 | e1] eqn:H1.
  { exists [GetUserMedia UserFacingLowRes], (Normal s1).
    split; [apply first_wins; exact H1 |]. simpl. auto. }
  destruct (getUserMedia md AnyVideo) as [s2 | e2] eqn:H2.
  { exists [GetUserMedia UserFacingLowRes; GetUserMedia AnyVideo], (Normal s2).
    split; [eapply second_wins; eassumption |]. simpl.
    rewrite <- app_assoc. auto. }
  destruct (enumerateDevices md) as [devices | e3] eqn:H3.
  - destruct (filter (fun d => eqb (kind d) (lit "videoinput")) devices)
      as [| d others] eqn:Hf.
    + eexists. eexists. split; [eapply no_video_input; eassumption |].
      split; [simpl; rewrite <- !app_assoc; reflexivity |].
      repeat split.
      apply handleError_taxonomy.
    + destruct (getUserMedia md (ExactDevice (deviceId d))) as [s3 | e3] eqn:H4.
      * eexists. exists (Normal s3).
        split; [eapply third_decides; eassumption |]. simpl.
        rewrite <- !app_assoc. auto.
      * eexists. exists (Throw e3).
        split; [eapply third_decides; eassumption |].
        split; [simpl; rewrite <- !app_assoc; reflexivity |].
        repeat split.
        apply handleError_taxonomy.
  - eexists. eexists. split; [eapply enumeration_fails; eassumption |].
    split; [simpl; rewrite <- !app_assoc; reflexivity |].
    repeat split.
    apply handleError_taxonomy.
Qed.

(** The first scenario of the specification: strategies 1 and 2 fail, one
    device can be enumerated, strategy 3 wins and the source gets ready. *)
Lemma startCamera_fallback_witness :
  exists reqs result,
    Acquisition onlyByIdentity reqs result
    /\ requests (startCamera onlyByIdentity fresh) = requests fresh ++ reqs
    /\ match result with
       | Normal s =>
           streamRef (startCamera onlyByIdentity fresh) = Some s
           /\ error (startCamera onlyByIdentity fresh) = None
           /\ isCameraReady (loadedmetadata (startCamera onlyByIdentity fresh))
              = true
       | Throw e =>
           streamRef (startCamera onlyByIdentity fresh) = None
           /\ isCameraReady (startCamera onlyByIdentity fresh) = false
           /\ isCameraReady (loadedmetadata (startCamera onlyByIdentity fresh))
              = false
           /\ exists msg,
               error (startCamera onlyByIdentity fresh) = Some msg
               /\ taxonomy e msg
       end.
Proof.
  apply (@startCamera_fallback onlyByIdentity fresh (mkVideo None false false)).
  reflexivity.
Defined.

(** The two scenarios of the specification, run. *)
Lemma startCamera_third_strategy_wins :
  let st := loadedmetadata (startCamera onlyByIdentity fresh) in
  isCameraReady st = true
  /\ error st = None
  /\ streamRef st = Some 7%nat
  /\ requests st = [GetUserMedia UserFacingLowRes; GetUserMedia AnyVideo;
                    EnumerateDevices; GetUserMedia (ExactDevice (lit "cam0"))].
Proof. vm_compute. repeat split. Qed.

Lemma startCamera_all_refused :
  let st := startCamera refused fresh in
  isCameraReady st = false
  /\ error st = Some (lit "Permission denied. Please allow camera access.")
  /\ streamRef st = None.
Proof. vm_compute. repeat split. Qed.

End CameraSource.

(* ------------------------------------------------------------------ *)
(** ** GestureSampler (GestureControl.tsx) *)
(* ------------------------------------------------------------------ *)

Section GestureSampler.

Import Js GestureControl.

Lemma sameSampler_refl (st : State) : sameSampler st st.
Proof. split; reflexivity. Qed.

Lemma sameSampler_trans (a b c : State) :
  sameSampler a b -> sameSampler b c -> sameSampler a c.
Proof. intros [H1 H2] [H3 H4]. split; congruence. Qed.

Lemma stopCamera_sameSampler (st : State) : sameSampler st (stopCamera st).
Proof.
  destruct st as [v c s r e p cl rq sp inf pub]. unfold stopCamera. simpl.
  destruct s; destruct v; split; reflexivity.
Qed.

Lemma handleStreamSuccess_sameSampler (stream : MediaStream) (st : State) :
  sameSampler st (handleStreamSuccess stream st).
Proof.
  destruct st as [v c s r e p cl rq sp inf pub]. unfold handleStreamSuccess.
  simpl. destruct v; split; reflexivity.
Qed.

Lemma handleError_sameSampler (e : Error) (st : State) :
  sameSampler st (handleError e st).
Proof. split; reflexivity. Qed.

Lemma startCamera_sameSampler (md : MediaDevices) (st : State) :
  sameSampler st (startCamera md st).
Proof.
  unfold startCamera.
  set (st0 := setError None (stopCamera st)).
  assert (H0 : sameSampler st st0)
    by (apply sameSampler_trans with (b := stopCamera st);
        [apply stopCamera_sameSampler | split; reflexivity]).
  clearbody st0.
  repeat match goal with
         | |- context [match ?x with _ => _ end] => destruct x
         end;
    (eapply sameSampler_trans; [exact H0 |]);
    first [ eapply sameSampler_trans;
            [| apply handleStreamSuccess_sameSampler]; split; reflexivity
          | eapply sameSampler_trans;
            [| apply handleError_sameSampler]; split; reflexivity ].
Qed.

Lemma loadedmetadata_sameSampler (st : State) : sameSampler st (loadedmetadata st).
Proof.
  unfold loadedmetadata.
  destruct (videoRef st) as [video |]; [| apply sameSampler_refl].
  destruct (srcObject video); [| apply sameSampler_refl].
  destruct (onloadedmetadata video); [| apply sameSampler_refl].
  split; reflexivity.
Qed.

Lemma commit_in_sync (st : State) :
  closure st = (isCameraReady st, isProcessing st) -> commit st = st.
Proof.
  destruct st as [v c s r e p cl rq sp inf pub]. unfold commit. simpl.
  intros ->. reflexivity.
Qed.

Lemma commit_sameSampler (st : State) : sameSampler st (commit st).
Proof. split; reflexivity. Qed.

Lemma singleFlight_commit (st st' : State) :
  singleFlight st -> sameSampler st st' -> singleFlight (commit st').
Proof.
  intros [_ Hflag] [Hp Hf]. split; [reflexivity |].
  change (isProcessing (commit st')) with (isProcessing st').
  change (inFlight (commit st')) with (inFlight st').
  rewrite Hp, Hf. exact Hflag.
Qed.

(** A tick in a busy state, or on a video without width or height, is
    dropped whole. *)
Lemma captureAndAnalyze_dropped (w h : nat) (dataURL : Completion jsstring)
    (st : State) :
  closure st = (isCameraReady st, isProcessing st) ->
  isProcessing st = true \/ w = 0%nat \/ h = 0%nat ->
  captureAndAnalyze w h dataURL st = st.
Proof.
  intros Hcl Hskip. unfold captureAndAnalyze. rewrite Hcl. simpl.
  destruct (videoRef st); [| reflexivity].
  destruct (canvasRef st); [| reflexivity].
  destruct Hskip as [Hbusy | [-> | ->]].
  - rewrite Hbusy, orb_true_r. reflexivity.
  - destruct (negb (isCameraReady st) || isProcessing st); reflexivity.
  - rewrite orb_true_r.
    destruct (negb (isCameraReady st) || isProcessing st); reflexivity.
Qed.

(** What a tick does to the sampler when it is idle: nothing, or it starts
    the one call and raises the flag. *)
Lemma captureAndAnalyze_idle (w h : nat) (dataURL : Completion jsstring)
    (st : State) :
  isProcessing st = false -> inFlight st = [] ->
  (isProcessing (captureAndAnalyze w h dataURL st) = false
   /\ inFlight (captureAndAnalyze w h dataURL st) = [])
  \/ (isProcessing (captureAndAnalyze w h dataURL st) = true
      /\ exists image,
          dataURL = Normal image
          /\ inFlight (captureAndAnalyze w h dataURL st) = [image]).
Proof.
  intros Hp Hf. unfold captureAndAnalyze.
  destruct (videoRef st); [| left; auto].
  destruct (canvasRef st) as [canvas |]; [| left; auto].
  destruct (negb (fst (closure st)) || snd (closure st)); [left; auto |].
  destruct (Nat.eqb w 0 || Nat.eqb h 0); [left; auto |].
  destruct (has2d canvas); [| left; simpl; auto].
  destruct dataURL as [image | err]; [| left; simpl; auto].
  right. simpl. rewrite Hf. split; [reflexivity |].
  exists image. split; reflexivity.
Qed.

Lemma step_singleFlight (st : State) (e : Event) :
  singleFlight st -> singleFlight (step st e).
Proof.
  intro Hinv. unfold step.
  destruct e as [md | | w h dataURL | outcome].
  - apply (singleFlight_commit st _ Hinv). apply startCamera_sameSampler.
  - apply (singleFlight_commit st _ Hinv). apply loadedmetadata_sameSampler.
  - destruct Hinv as [Hcl [[Hp Hf] | [Hp Hf]]].
    + split; [reflexivity |].
      change (isProcessing (commit ?s)) with (isProcessing s).
      change (inFlight (commit ?s)) with (inFlight s).
      destruct (captureAndAnalyze_idle w h dataURL st Hp Hf)
        as [Hidle | (Hbusy & image & _ & Himage)].
      * left. exact Hidle.
      * right. split; [exact Hbusy | exists image; exact Himage].
    + rewrite (captureAndAnalyze_dropped w h dataURL st Hcl (or_introl Hp)).
      rewrite (commit_in_sync st Hcl). split; [exact Hcl | right; auto].
  - split; [reflexivity |].
    change (isProcessing (commit ?s)) with (isProcessing s).
    change (inFlight (commit ?s)) with (inFlight s).
    unfold settle.
    destruct Hinv as [_ [[Hp Hf] | [Hp (image & Hf)]]]; rewrite Hf.
    + left. split; assumption.
    + left. destruct outcome; split; reflexivity.
Qed.

Lemma run_sampler_snoc (es : list Event) (e : Event) (st : State) :
  run (es ++ [e]) st = step (run es st) e.
Proof. unfold run. rewrite fold_left_app. reflexivity. Qed.

Lemma run_singleFlight (es : list Event) (video : option Video)
    (canvas : option CanvasElement) :
  singleFlight (run es (initial video canvas)).
Proof.
  induction es as [| e es IH] using rev_ind.
  - split; [reflexivity | left; split; reflexivity].
  - rewrite run_sampler_snoc. apply step_singleFlight. exact IH.
Qed.

(** C4. After any sequence of events (camera starts, metadata, ticks,
    settlements) at most one classification call is pending, and the busy
    flag is up exactly while one is. A tick that comes while the flag is up,
    or while the video has no width or no height, leaves the state as it
    is: nothing is captured, started or queued. A raised flag comes down at
    the settlement of the pending call and at no other event, whether the
    call is fulfilled or rejected; a lowered flag goes up only at a tick
    that starts a call. *)
Theorem sampler_single_flight
    (video : option Video) (canvas : option CanvasElement) (es : list Event) :
  let st := run es (initial video canvas) in
  (List.length (inFlight st) <= 1)%nat
  /\ (isProcessing st = true <-> exists image, inFlight st = [image])
  /\ (forall w h dataURL,
         isProcessing st = true \/ w = 0%nat \/ h = 0%nat ->
         step st (Tick w h dataURL) = st)
  /\ (forall e,
         isProcessing st = true ->
         (isProcessing (step st e) = false <-> exists outcome, e = Settle outcome))
  /\ (forall outcome,
         isProcessing st = true ->
         isProcessing (step st (Settle outcome)) = false
         /\ inFlight (step st (Settle outcome)) = [])
  /\ (forall e,
         isProcessing st = false ->
         isProcessing (step st e) = true ->
         exists w h image,
           e = Tick w h (Normal image) /\ inFlight (step st e) = [image]).
Proof.
  intro st.
  pose proof (run_singleFlight es video canvas) as Hinv. fold st in Hinv.
  pose proof Hinv as [Hcl Hflag].
  split; [| split; [| split; [| split; [| split]]]].
  - destruct Hflag as [[_ Hf] | [_ (image & Hf)]]; rewrite Hf; simpl; lia.
  - destruct Hflag as [[Hp Hf] | [Hp (image & Hf)]]; rewrite Hp, Hf.
    + split; [discriminate | intros (image & Himage); discriminate].
    + split; [intros _; exists image; reflexivity | reflexivity].
  - intros w h dataURL Hskip. unfold step.
    rewrite (captureAndAnalyze_dropped w h dataURL st Hcl Hskip).
    apply commit_in_sync. exact Hcl.
  - intros e Hbusy.
    destruct e as [md | | w h dataURL | outcome].
    + split.
      * intro Hdown. exfalso.
        destruct (startCamera_sameSampler md st) as [Hsame _].
        unfold step in Hdown.
        change (isProcessing (commit ?s)) with (isProcessing s) in Hdown.
        congruence.
      * intros (outcome & Habs). discriminate.
    + split.
      * intro Hdown. exfalso.
        destruct (loadedmetadata_sameSampler st) as [Hsame _].
        unfold step in Hdown.
        change (isProcessing (commit ?s)) with (isProcessing s) in Hdown.
        congruence.
      * intros (outcome & Habs). discriminate.
    + split.
      * intro Hdown. exfalso. unfold step in Hdown.
        rewrite (captureAndAnalyze_dropped w h dataURL st Hcl (or_introl Hbusy))
          in Hdown.
        change (isProcessing (commit ?s)) with (isProcessing s) in Hdown.
        congruence.
      * intros (outcome & Habs). discriminate.
    + split; [intros _; exists outcome; reflexivity |].
      intros _. unfold step, settle.
      destruct Hflag as [[Hp _] | [_ (image & Hf)]]; [congruence |].
      rewrite Hf. destruct outcome; reflexivity.
  - intros outcome Hbusy. unfold step, settle.
    destruct Hflag as [[Hp _] | [_ (image & Hf)]]; [congruence |].
    rewrite Hf. destruct outcome; split; reflexivity.
  - intros e Hidle Hup.
    destruct Hflag as [[_ Hf] | [Hp _]]; [| congruence].
    destruct e as [md | | w h dataURL | outcome]; unfold step in *;
      change (isProcessing (commit ?s)) with (isProcessing s) in Hup;
      change (inFlight (commit ?s)) with (inFlight s).
    + destruct (startCamera_sameSampler md st) as [Hsame _]. congruence.
    + destruct (loadedmetadata_sameSampler st) as [Hsame _]. congruence.
    + destruct (captureAndAnalyze_idle w h dataURL st Hidle Hf)
        as [[Hdown _] | (_ & image & -> & Himage)]; [congruence |].
      exists w, h, image. split; [reflexivity | exact Himage].
    + unfold settle in Hup. rewrite Hf in Hup. congruence.
Qed.

Lemma sampler_single_flight_witness :
  let st := run firstTick fresh in
  isProcessing st = true
  /\ inFlight st = [someImage]
  /\ step st (Tick 320 240 (Normal (lit "later"))) = st
  /\ inFlight (step st (Settle (Throw (TypeError "rejected")))) = []
  /\ isProcessing (step st (Settle (Normal (GestureType_value FIST)))) = false.
Proof.
  intro st.
  destruct (sampler_single_flight
              (Some (mkVideo None false false)) (Some (mkCanvas 300 150 true))
              firstTick)
    as (_ & _ & Hdrop & _ & Hsettle & _).
  assert (Hbusy : isProcessing st = true) by (vm_compute; reflexivity).
  split; [exact Hbusy |].
  split; [vm_compute; reflexivity |].
  split; [apply Hdrop; left; exact Hbusy |].
  split; [apply (Hsettle _ Hbusy) | apply (Hsettle _ Hbusy)].
Defined.

(** What the re-render between ticks is for: the callback reads the flag
    it closed over, so a second tick run with the callback of the first
    one would start a second call. *)
Remark stale_callback_would_overlap :
  let ready := commit (loadedmetadata (startCamera onlyByIdentity fresh)) in
  let once := captureAndAnalyze 320 240 (Normal (lit "a")) ready in
  let twice := captureAndAnalyze 320 240 (Normal (lit "b")) once in
  inFlight once = [lit "a"]
  /\ inFlight twice = [lit "a"; lit "b"]
  /\ inFlight (captureAndAnalyze 320 240 (Normal (lit "b")) (commit once))
     = [lit "a"].
Proof. vm_compute. repeat split. Qed.

End GestureSampler.

(* ------------------------------------------------------------------ *)
(** ** [JSON.parse]: the fuel is enough *)
(* ------------------------------------------------------------------ *)

Section ParserFuel.

Import Js JSON.

Lemma skipWhitespace_length (s : jsstring) :
  (List.length (skipWhitespace s) <= List.length s)%nat.
Proof.
  induction s as [| c s IH]; simpl; [lia |].
  destruct (isWhitespace c); simpl; lia.
Qed.

Lemma closes_length (c : N) (s r : jsstring) :
  closes c s = Some r -> (List.length r < List.length s)%nat.
Proof.
  unfold closes. pose proof (skipWhitespace_length s) as Hs.
  destruct (skipWhitespace s) as [| d rest]; [discriminate |].
  destruct (N.eqb d c); [| discriminate].
  intro H. injection H as <-. simpl in Hs. lia.
Qed.

Lemma stripPrefix_length (prefix : jsstring) :
  forall s r, stripPrefix prefix s = Some r ->
              (List.length r + List.length prefix = List.length s)%nat.
Proof.
  induction prefix as [| c prefix IH]; intros s r H; simpl in *.
  - injection H as <-. lia.
  - destruct s as [| d s]; [discriminate |].
    destruct (N.eqb c d); [| discriminate].
    apply IH in H. simpl. lia.
Qed.

Lemma digits_length (s : jsstring) :
  (List.length (fst (digits s)) + List.length (snd (digits s))
   = List.length s)%nat.
Proof.
  induction s as [| c s IH]; simpl; [reflexivity |].
  destruct (isDigit c); simpl; [| reflexivity].
  destruct (digits s) as [ds r]. simpl in *. lia.
Qed.

Lemma digits1_length (s ds r : jsstring) :
  digits1 s = Some (ds, r) -> (List.length r < List.length s)%nat.
Proof.
  unfold digits1. pose proof (digits_length s) as Hd.
  destruct (digits s) as [[| d ds'] r']; [discriminate |].
  intro H. injection H as <- <-. simpl in Hd. lia.
Qed.

Lemma parseNumber_length (s n r : jsstring) :
  parseNumber s = Some (n, r) -> (List.length r < List.length s)%nat.
Proof.
  unfold parseNumber.
  destruct (parseSign s) as [sign s0] eqn:Hsign.
  assert (H0 : (List.length s0 <= List.length s)%nat).
  { unfold parseSign in Hsign. destruct s as [| c s']; [injection Hsign as <- <-; lia |].
    destruct (N.eqb c 45); injection Hsign as <- <-; simpl; lia. }
  destruct (parseInt s0) as [[i s1] |] eqn:Hint; [| discriminate].
  assert (H1 : (List.length s1 < List.length s0)%nat).
  { unfold parseInt in Hint. destruct s0 as [| c s0']; [discriminate |].
    destruct (N.eqb c 48).
    - injection Hint as <- <-. simpl. lia.
    - apply digits1_length in Hint. exact Hint. }
  destruct (parseFrac s1) as [[f s2] |] eqn:Hfrac; [| discriminate].
  assert (H2 : (List.length s2 <= List.length s1)%nat).
  { unfold parseFrac in Hfrac. destruct s1 as [| c s1']; [injection Hfrac as <- <-; lia |].
    destruct (N.eqb c 46).
    - destruct (digits1 s1') as [[ds r'] |] eqn:Hds; [| discriminate].
      injection Hfrac as <- <-. apply digits1_length in Hds. simpl. lia.
    - injection Hfrac as <- <-. lia. }
  destruct (parseExp s2) as [[x s3] |] eqn:Hexp; [| discriminate].
  assert (H3 : (List.length s3 <= List.length s2)%nat).
  { unfold parseExp in Hexp. destruct s2 as [| e s2']; [injection Hexp as <- <-; lia |].
    destruct (N.eqb e 101 || N.eqb e 69).
    - destruct s2' as [| c r1].
      + destruct (digits1 []) as [[ds r'] |] eqn:Hds; [| discriminate].
        apply digits1_length in Hds. simpl in Hds. lia.
      + destruct (N.eqb c 43 || N.eqb c 45).
        * destruct (digits1 r1) as [[ds r'] |] eqn:Hds; [| discriminate].
          injection Hexp as <- <-. apply digits1_length in Hds. simpl. lia.
        * destruct (digits1 (c :: r1)) as [[ds r'] |] eqn:Hds; [| discriminate].
          injection Hexp as <- <-. apply digits1_length in Hds. simpl in *. lia.
    - injection Hexp as <- <-. lia. }
  intro H. injection H as <- <-. lia.
Qed.

Lemma consTo_length (c : N) (p : option (jsstring * jsstring)) (cs r : jsstring) :
  consTo c p = Some (cs, r) -> exists cs', p = Some (cs', r).
Proof.
  destruct p as [[cs' r'] |]; simpl; [| discriminate].
  intro H. injection H as <- <-. eauto.
Qed.

Lemma parseString_length (n : nat) :
  forall s cs r, (List.length s <= n)%nat ->
                 parseString s = Some (cs, r) ->
                 (List.length r < List.length s)%nat.
Proof.
  induction n as [| n IH]; intros s cs r Hn H.
  - destruct s; [discriminate | simpl in Hn; lia].
  - destruct s as [| c rest]; [discriminate |].
    simpl in Hn. simpl in H.
    destruct (N.eqb c 34); [injection H as <- <-; simpl; lia |].
    destruct (N.eqb c 92).
    + destruct rest as [| esc rest1]; [discriminate |]. simpl in Hn.
      assert (Hsimple : forall d, consTo d (parseString rest1) = Some (cs, r) ->
                                  (List.length r < List.length (c :: esc :: rest1))%nat).
      { intros d Hd. apply consTo_length in Hd. destruct Hd as [cs' Hd].
        apply IH in Hd; [simpl; lia | lia]. }
      destruct (N.eqb esc 34 || N.eqb esc 92 || N.eqb esc 47); [eauto |].
      destruct (N.eqb esc 98); [eauto |].
      destruct (N.eqb esc 102); [eauto |].
      destruct (N.eqb esc 110); [eauto |].
      destruct (N.eqb esc 114); [eauto |].
      destruct (N.eqb esc 116); [eauto |].
      destruct (N.eqb esc 117); [| discriminate].
      destruct rest1 as [| h1 [| h2 [| h3 [| h4 rest2]]]]; try discriminate.
      destruct (hexValue h1); [| discriminate].
      destruct (hexValue h2); [| discriminate].
      destruct (hexValue h3); [| discriminate].
      destruct (hexValue h4); [| discriminate].
      apply consTo_length in H. destruct H as [cs' H].
      simpl in Hn. apply IH in H; [simpl; lia | lia].
    + destruct (N.ltb c 32); [discriminate |].
      apply consTo_length in H. destruct H as [cs' H].
      apply IH in H; [simpl; lia | lia].
Qed.

Lemma parseAtom_length (s : jsstring) (v : Value) (r : jsstring) :
  parseAtom s = Ok v r -> (List.length r < List.length s)%nat.
Proof.
  unfold parseAtom.
  destruct (stripPrefix (lit "true") s) eqn:Ht.
  { intro H. injection H as _ <-. apply stripPrefix_length in Ht. simpl in Ht. lia. }
  destruct (stripPrefix (lit "false") s) eqn:Hf.
  { intro H. injection H as _ <-. apply stripPrefix_length in Hf. simpl in Hf. lia. }
  destruct (stripPrefix (lit "null") s) eqn:Hn.
  { intro H. injection H as _ <-. apply stripPrefix_length in Hn. simpl in Hn. lia. }
  destruct (parseNumber s) as [[n r'] |] eqn:Hnum; [| discriminate].
  intro H. injection H as _ <-. eapply parseNumber_length. exact Hnum.
Qed.

Lemma parseAtom_fuel (s : jsstring) : parseAtom s <> OutOfFuel.
Proof.
  unfold parseAtom.
  destruct (stripPrefix (lit "true") s); [discriminate |].
  destruct (stripPrefix (lit "false") s); [discriminate |].
  destruct (stripPrefix (lit "null") s); [discriminate |].
  destruct (parseNumber s) as [[n r'] |]; discriminate.
Qed.

(** Whatever is read, the rest is shorter. *)
Lemma parse_progress (fuel : nat) :
  (forall s v r, parseValue fuel s = Ok v r ->
                 (List.length r < List.length s)%nat)
  /\ (forall s acc vs r, parseElements fuel s acc = Ok vs r ->
                         (List.length r < List.length s)%nat)
  /\ (forall s acc ms r, parseMembers fuel s acc = Ok ms r ->
                         (List.length r < List.length s)%nat).
Proof.
  induction fuel as [| f (IHv & IHe & IHm)];
    [repeat split; intros; discriminate |].
  split; [| split].
  - intros s v r H. simpl in H.
    pose proof (skipWhitespace_length s) as Hs.
    destruct (skipWhitespace s) as [| c rest]; [discriminate |]. simpl in Hs.
    destruct (N.eqb c 123).
    { destruct (closes 125 rest) as [r' |] eqn:Hc.
      - injection H as _ <-. apply closes_length in Hc. lia.
      - destruct (parseMembers f rest []) as [ms r' | |] eqn:Hm; try discriminate.
        injection H as _ <-. apply IHm in Hm. lia. }
    destruct (N.eqb c 91).
    { destruct (closes 93 rest) as [r' |] eqn:Hc.
      - injection H as _ <-. apply closes_length in Hc. lia.
      - destruct (parseElements f rest []) as [vs r' | |] eqn:He; try discriminate.
        injection H as _ <-. apply IHe in He. lia. }
    destruct (N.eqb c 34).
    { destruct (parseString rest) as [[cs r'] |] eqn:Hstr; [| discriminate].
      injection H as _ <-.
      apply (parseString_length (List.length rest)) in Hstr; lia. }
    apply parseAtom_length in H. simpl in H. lia.
  - intros s acc vs r H. simpl in H.
    destruct (parseValue f s) as [v r1 | |] eqn:Hv; try discriminate.
    apply IHv in Hv.
    destruct (closes 44 r1) as [r' |] eqn:Hc.
    + apply IHe in H. apply closes_length in Hc. lia.
    + destruct (closes 93 r1) as [r' |] eqn:Hc'; [| discriminate].
      injection H as _ <-. apply closes_length in Hc'. lia.
  - intros s acc ms r H. simpl in H.
    destruct (closes 34 s) as [r0 |] eqn:Hq; [| discriminate].
    apply closes_length in Hq.
    destruct (parseString r0) as [[k r1] |] eqn:Hk; [| discriminate].
    apply (parseString_length (List.length r0)) in Hk; [| lia].
    destruct (closes 58 r1) as [r2 |] eqn:Hcolon; [| discriminate].
    apply closes_length in Hcolon.
    destruct (parseValue f r2) as [v r3 | |] eqn:Hv; try discriminate.
    apply IHv in Hv.
    destruct (closes 44 r3) as [r4 |] eqn:Hc.
    + apply IHm in H. apply closes_length in Hc. lia.
    + destruct (closes 125 r3) as [r4 |] eqn:Hc'; [| discriminate].
      injection H as _ <-. apply closes_length in Hc'. lia.
Qed.

(** Two units of fuel for each code unit are never used up. *)
Lemma parse_fuel (fuel : nat) :
  (forall s, (2 * List.length s < fuel)%nat -> parseValue fuel s <> OutOfFuel)
  /\ (forall s acc, (2 * List.length s + 1 < fuel)%nat ->
                    parseElements fuel s acc <> OutOfFuel)
  /\ (forall s acc, (2 * List.length s + 1 < fuel)%nat ->
                    parseMembers fuel s acc <> OutOfFuel).
Proof.
  induction fuel as [| f (IHv & IHe & IHm)];
    [repeat split; intros; lia |].
  destruct (parse_progress f) as (Pv & Pe & Pm).
  split; [| split].
  - intros s Hfuel. simpl.
    pose proof (skipWhitespace_length s) as Hs.
    destruct (skipWhitespace s) as [| c rest]; [discriminate |]. simpl in Hs.
    destruct (N.eqb c 123).
    { destruct (closes 125 rest); [discriminate |].
      specialize (IHm rest []).
      destruct (parseMembers f rest []); try discriminate.
      exfalso. apply IHm; [lia | reflexivity]. }
    destruct (N.eqb c 91).
    { destruct (closes 93 rest); [discriminate |].
      specialize (IHe rest []).
      destruct (parseElements f rest []); try discriminate.
      exfalso. apply IHe; [lia | reflexivity]. }
    destruct (N.eqb c 34).
    { destruct (parseString rest) as [[cs r'] |]; discriminate. }
    apply parseAtom_fuel.
  - intros s acc Hfuel. simpl.
    specialize (IHv s).
    destruct (parseValue f s) as [v r1 | |] eqn:Hv; try discriminate.
    + apply Pv in Hv.
      destruct (closes 44 r1) as [r' |] eqn:Hc.
      * apply closes_length in Hc. apply IHe. lia.
      * destruct (closes 93 r1); discriminate.
    + exfalso. apply IHv; [lia | reflexivity].
  - intros s acc Hfuel. simpl.
    destruct (closes 34 s) as [r0 |] eqn:Hq; [| discriminate].
    apply closes_length in Hq.
    destruct (parseString r0) as [[k r1] |] eqn:Hk; [| discriminate].
    apply (parseString_length (List.length r0)) in Hk; [| lia].
    destruct (closes 58 r1) as [r2 |] eqn:Hcolon; [| discriminate].
    apply closes_length in Hcolon.
    specialize (IHv r2).
    destruct (parseValue f r2) as [v r3 | |] eqn:Hv; try discriminate.
    + apply Pv in Hv.
      destruct (closes 44 r3) as [r4 |] eqn:Hc.
      * apply closes_length in Hc. apply IHm. lia.
      * destruct (closes 125 r3); discriminate.
    + exfalso. apply IHv; [lia | reflexivity].
Qed.

(** [JSON.parse] never fails for lack of fuel: a text either is one JSON
    value or is rejected as such. *)
Lemma parse_total (text : jsstring) :
  parseValue (enough text) text <> OutOfFuel.
Proof. apply parse_fuel. unfold enough. lia. Qed.

End ParserFuel.

(* ------------------------------------------------------------------ *)
(** ** GestureClassifierClient (services/gemini.ts) *)
(* ------------------------------------------------------------------ *)

Section GestureClassifierClient.

Import Js Gemini.

(** The promise of [detectHandGesture] is never rejected. *)
Lemma detectHandGesture_never_throws
    (env_API_KEY : option jsstring)
    (generateContent : jsstring -> Completion (option jsstring))
    (base64Image : jsstring) :
  exists v, detectHandGesture env_API_KEY generateContent base64Image = Normal v.
Proof.
  unfold detectHandGesture.
  destruct (orElse env_API_KEY []); [eexists; reflexivity |].
  unfold try_catch.
  match goal with
  | |- exists v, match ?body with _ => _ end = _ => destruct body
  end; eexists; reflexivity.
Qed.

(** Without a key, on a transport error, on a text that is not JSON and on
    the JSON text [null] the result is [NONE]. *)
Lemma detectHandGesture_failures_are_NONE
    (generateContent : jsstring -> Completion (option jsstring))
    (base64Image : jsstring) :
  detectHandGesture None generateContent base64Image
  = Normal (GestureType_value NONE)
  /\ detectHandGesture (Some []) generateContent base64Image
     = Normal (GestureType_value NONE)
  /\ (forall key e,
         generateContent (removeDataUrlPrefix base64Image) = Throw e ->
         detectHandGesture key generateContent base64Image
         = Normal (GestureType_value NONE))
  /\ (forall key text e,
         generateContent (removeDataUrlPrefix base64Image) = Normal text ->
         JSON.parse (sanitize (orElse text (lit "{}"))) = Throw e ->
         detectHandGesture key generateContent base64Image
         = Normal (GestureType_value NONE))
  /\ (forall key text,
         generateContent (removeDataUrlPrefix base64Image) = Normal text ->
         JSON.parse (sanitize (orElse text (lit "{}"))) = Normal null ->
         detectHandGesture key generateContent base64Image
         = Normal (GestureType_value NONE)).
Proof.
  repeat split.
  - intros key e Hcall. unfold detectHandGesture.
    destruct (orElse key []); [reflexivity |]. rewrite Hcall. reflexivity.
  - intros key text e Hcall Hparse. unfold detectHandGesture.
    destruct (orElse key []); [reflexivity |].
    rewrite Hcall. cbn [bind]. rewrite Hparse. reflexivity.
  - intros key text Hcall Hparse. unfold detectHandGesture.
    destruct (orElse key []); [reflexivity |].
    rewrite Hcall. cbn [bind]. rewrite Hparse. reflexivity.
Qed.

(** A label of the enum is returned as it came, fenced or not; texts that
    are not JSON give [NONE]. *)
Lemma detectHandGesture_labels :
  detectHandGesture someKey (answering (Some (labelPayload "FIST"))) someImage
  = Normal (GestureType_value FIST)
  /\ detectHandGesture someKey
       (answering (Some (fenced (labelPayload "OPEN")))) someImage
     = Normal (GestureType_value OPEN)
  /\ detectHandGesture someKey (answering (Some (lit "I see a fist"))) someImage
     = Normal (GestureType_value NONE)
  /\ detectHandGesture someKey (answering (Some (lit "null"))) someImage
     = Normal (GestureType_value NONE)
  /\ detectHandGesture someKey unreachable someImage
     = Normal (GestureType_value NONE).
Proof. vm_compute. repeat split. Qed.

(** C2, at the inputs where the code leaves it. With a key set, an empty
    text (or none) is read as the object without properties, whose
    [gesture] is [undefined]; a label outside the enum is passed on as it
    is. In both cases the value returned is none of FIST, OPEN, NONE. *)
Theorem detectHandGesture_empty_payload (c : N) (key image : jsstring) :
  detectHandGesture (Some (c :: key)) (answering (Some [])) image
  = Normal undefined
  /\ detectHandGesture (Some (c :: key)) (answering None) image
     = Normal undefined
  /\ detectHandGesture (Some (c :: key))
       (answering (Some (labelPayload "PEACE"))) image
     = Normal (str (lit "PEACE"))
  /\ ~ isGesture undefined
  /\ ~ isGesture (str (lit "PEACE")).
Proof.
  repeat split; try (vm_compute; reflexivity);
    intros [[| |] Habs]; vm_compute in Habs; discriminate.
Qed.

End GestureClassifierClient.

(* ================================================================== *)
(** * Further properties of the code *)
(* ================================================================== *)

(* ------------------------------------------------------------------ *)
(** ** ParticleEngine: pointer repulsion and speed *)
(* ------------------------------------------------------------------ *)

Section Repulsion.

Import ParticleCanvas.

Lemma norm_positive (px py : R) :
  px <> 0 \/ py <> 0 -> 0 < sqrt (px * px + py * py).
Proof.
  intro Hne. apply sqrt_lt_R0. destruct Hne as [H | H]; nra.
Qed.

Lemma sqrt_one_plus_slope (px py : R) :
  px <> 0 ->
  sqrt (1 + (py / px)²) = sqrt (px * px + py * py) / Rabs px.
Proof.
  intro Hpx.
  assert (Habs : 0 < Rabs px) by (apply Rabs_pos_lt; exact Hpx).
  assert (Hd : 0 < sqrt (px * px + py * py)) by (apply norm_positive; auto).
  apply sqrt_lem_1.
  - unfold Rsqr. nra.
  - apply Rlt_le. apply Rdiv_lt_0_compat; assumption.
  - unfold Rsqr.
    assert (Hsq : Rabs px * Rabs px = px * px).
    { unfold Rabs. destruct (Rcase_abs px); ring. }
    assert (Hdd : sqrt (px * px + py * py) * sqrt (px * px + py * py)
                  = px * px + py * py) by (apply sqrt_sqrt; nra).
    transitivity
      ((sqrt (px * px + py * py) * sqrt (px * px + py * py))
       / (Rabs px * Rabs px)).
    + field. lra.
    + rewrite Hdd, Hsq. field. exact Hpx.
Qed.

(** [Math.atan2] gives the direction of the vector: its cosine and sine
    are the coordinates divided by the length. *)
Lemma atan2_direction (py px : R) :
  px <> 0 \/ py <> 0 ->
  cos (atan2 py px) = px / sqrt (px * px + py * py)
  /\ sin (atan2 py px) = py / sqrt (px * px + py * py).
Proof.
  intro Hne. pose proof (norm_positive px py Hne) as Hd.
  unfold atan2.
  destruct (Rlt_dec 0 px) as [Hpos | Hnpos].
  - rewrite cos_atan, sin_atan, sqrt_one_plus_slope by lra.
    rewrite Rabs_right by lra. split; field; lra.
  - destruct (Rlt_dec px 0) as [Hneg | Hnneg].
    + assert (Hs : sqrt (1 + (py / px)²)
                   = sqrt (px * px + py * py) / Rabs px)
        by (apply sqrt_one_plus_slope; lra).
      rewrite Rabs_left in Hs by lra.
      destruct (Rlt_dec py 0).
      * rewrite cos_minus, sin_minus, cos_PI, sin_PI, cos_atan, sin_atan, Hs.
        split; field; lra.
      * rewrite neg_cos, neg_sin, cos_atan, sin_atan, Hs.
        split; field; lra.
    + assert (Hpx : px = 0) by lra. subst px.
      assert (Hpy : py <> 0) by (destruct Hne; [lra | assumption]).
      replace (0 * 0 + py * py) with (py * py) in * by ring.
      destruct (Rlt_dec 0 py) as [Hup | Hnup].
      * rewrite cos_PI2, sin_PI2, sqrt_square by lra. split; field; lra.
      * destruct (Rlt_dec py 0) as [Hdown | Hndown]; [| lra].
        rewrite cos_neg, sin_neg, cos_PI2, sin_PI2.
        replace (py * py) with ((- py) * (- py)) by ring.
        rewrite sqrt_square by lra. split; field; lra.
Qed.

Lemma atan2_origin : atan2 0 0 = 0.
Proof.
  unfold atan2.
  destruct (Rlt_dec 0 0); [lra |]. reflexivity.
Qed.

End Repulsion.

Section OpenModeVelocity.

Import ParticleCanvas.

(** X1. Pointer repulsion in open mode, as lines 145-154 compute it from
    the position the particle has after the wrap. At 100 units or more
    from the pointer the velocity is the limited one. Inside that radius
    the particle gets an impulse of length (100 - distance) / 10 along the
    vector from the pointer to the particle. A particle exactly on the
    pointer is pushed by 10 units along the x axis, since [Math.atan2]
    gives angle 0 there. *)
Theorem open_mode_repulsion
    (now r0 r1 : R) (mouse : Point.t) (d : Dimensions) (i : nat) (p : Particle) :
  let p' := openUpdate now r0 r1 mouse d i p in
  let dx := x p' - Point.x mouse in
  let dy := y p' - Point.y mouse in
  let dist := sqrt (dx * dx + dy * dy) in
  let v0x := limit (vx p + (r0 - 0.5) * 0.1) in
  let v0y := limit (vy p + (r1 - 0.5) * 0.1) in
  (100 <= dist -> vx p' = v0x /\ vy p' = v0y)
  /\ (0 < dist < 100 ->
      vx p' = v0x + (100 - dist) * 0.1 * (dx / dist)
      /\ vy p' = v0y + (100 - dist) * 0.1 * (dy / dist))
  /\ (dist = 0 -> vx p' = v0x + 10 /\ vy p' = v0y).
Proof.
  intros p' dx dy dist v0x v0y.
  subst p'. unfold openUpdate in *. cbn [x y vx vy] in *.
  fold dx dy. fold dist. fold v0x v0y.
  destruct (Rlt_dec dist 100) as [Hin | Hout]; cbv beta iota.
  - split; [intro; lra |]. split.
    + intros [Hpos _].
      assert (Hne : dx <> 0 \/ dy <> 0).
      { destruct (Req_dec dx 0) as [Hx | Hx]; [| left; exact Hx].
        destruct (Req_dec dy 0) as [Hy | Hy]; [| right; exact Hy].
        exfalso. unfold dist in Hpos. rewrite Hx, Hy in Hpos.
        replace (0 * 0 + 0 * 0) with 0 in Hpos by ring.
        rewrite sqrt_0 in Hpos. lra. }
      destruct (atan2_direction dy dx Hne) as [Hcos Hsin].
      fold dist in Hcos, Hsin. rewrite Hcos, Hsin. split; ring.
    + intro Hzero.
      assert (Hsq : dx * dx + dy * dy = 0).
      { apply sqrt_eq_0; [nra | exact Hzero]. }
      assert (Hx : dx = 0) by nra. assert (Hy : dy = 0) by nra.
      rewrite Hx, Hy, atan2_origin, cos_0, sin_0, Hzero. split; lra.
  - split; [intros _; split; reflexivity |].
    split; [intros [_ Hlt]; lra |].
    intro Hzero. lra.
Qed.

Lemma open_mode_repulsion_witness :
  let p' := openUpdate 0 0.5 0.5 (Point.mk 0 0) (mkDimensions 100 100) 0
                       (particleAt 3 4 0 0) in
  vx p' = 0 + (100 - 5) * 0.1 * (3 / 5).
Proof.
  intro p'.
  destruct (open_mode_repulsion 0 0.5 0.5 (Point.mk 0 0) (mkDimensions 100 100)
                                0 (particleAt 3 4 0 0))
    as (_ & Hinside & _).
  assert (Hx : x p' = 3).
  { unfold p', openUpdate, wrap, limit, maxSpeed, Rmin. cbn [x vx particleAt width].
    destruct (Rle_dec (0 + (0.5 - 0.5) * 0.1) 2); [| lra].
    unfold Rmax. destruct (Rle_dec (0 + (0.5 - 0.5) * 0.1) (- (2))); [lra |].
    destruct (Rlt_dec (3 + (0 + (0.5 - 0.5) * 0.1)) 0); [lra |].
    destruct (Rgt_dec (3 + (0 + (0.5 - 0.5) * 0.1)) 100); lra. }
  assert (Hy : y p' = 4).
  { unfold p', openUpdate, wrap, limit, maxSpeed, Rmin. cbn [y vy particleAt height].
    destruct (Rle_dec (0 + (0.5 - 0.5) * 0.1) 2); [| lra].
    unfold Rmax. destruct (Rle_dec (0 + (0.5 - 0.5) * 0.1) (- (2))); [lra |].
    destruct (Rlt_dec (4 + (0 + (0.5 - 0.5) * 0.1)) 0); [lra |].
    destruct (Rgt_dec (4 + (0 + (0.5 - 0.5) * 0.1)) 100); lra. }
  assert (Hdist : sqrt ((x p' - 0) * (x p' - 0) + (y p' - 0) * (y p' - 0)) = 5).
  { rewrite Hx, Hy. replace ((3 - 0) * (3 - 0) + (4 - 0) * (4 - 0)) with (5 * 5) by ring.
    apply sqrt_square. lra. }
  assert (Hv0 : limit (vx (particleAt 3 4 0 0) + (0.5 - 0.5) * 0.1) = 0).
  { unfold limit, maxSpeed, Rmin. cbn [vx particleAt].
    destruct (Rle_dec (0 + (0.5 - 0.5) * 0.1) 2); [| lra].
    unfold Rmax. destruct (Rle_dec (0 + (0.5 - 0.5) * 0.1) (- (2))); lra. }
  cbn [Point.x Point.y] in Hinside. fold p' in Hinside.
  rewrite Hdist, Hx, Hv0 in Hinside.
  destruct Hinside as [Hvx _]; [lra |].
  rewrite Hvx. lra.
Defined.

Lemma updateFrom_Forall (P : Particle -> Prop) (isFlowerMode : bool) (now : R)
    (rand : nat -> R) (mouse : Point.t) (d : Dimensions) (total : nat)
    (ps : list Particle) :
  (forall i p, In p ps -> P (update isFlowerMode now rand mouse d total i p)) ->
  forall i, Forall P (updateFrom isFlowerMode now rand mouse d total i ps).
Proof.
  induction ps as [| p ps IH]; intros Hall i; simpl.
  - constructor.
  - constructor.
    + apply Hall. left. reflexivity.
    + apply IH. intros j q Hq. apply Hall. right. exact Hq.
Qed.

Lemma openUpdate_speed (now r0 r1 : R) (mouse : Point.t) (d : Dimensions)
    (i : nat) (p : Particle) :
  - 12 <= vx (openUpdate now r0 r1 mouse d i p) <= 12
  /\ - 12 <= vy (openUpdate now r0 r1 mouse d i p) <= 12.
Proof.
  unfold openUpdate. cbn [vx vy].
  set (dx := wrap (width d) _ - Point.x mouse).
  set (dy := wrap (height d) _ - Point.y mouse).
  set (dist := sqrt (dx * dx + dy * dy)).
  pose proof (limit_bounded (vx p + (r0 - 0.5) * 0.1)) as Hvx.
  pose proof (limit_bounded (vy p + (r1 - 0.5) * 0.1)) as Hvy.
  unfold maxSpeed in Hvx, Hvy.
  destruct (Rlt_dec dist 100) as [Hin | Hout]; [| split; lra].
  assert (Hd : 0 <= dist) by apply sqrt_pos.
  pose proof (COS_bound (atan2 dy dx)) as Hc.
  pose proof (SIN_bound (atan2 dy dx)) as Hs.
  assert (Hf : 0 < (100 - dist) * 0.1 <= 10) by (split; nra).
  split; split; nra.
Qed.

(** X2. Speed in open mode. After a frame no velocity component exceeds 12
    in size: 2 from the limit of line 132 plus at most 10 from the
    repulsion, which is added after the limit. *)
Theorem open_mode_speed_bound
    (now : R) (rand : nat -> R) (st : Component) (c : Canvas.Context2D) :
  ctx st = Some c ->
  gesture st <> FIST ->
  drawable (particlesRef st) ->
  exists st',
    animate now rand st = Js.Normal st'
    /\ Forall (fun p => - 12 <= vx p <= 12 /\ - 12 <= vy p <= 12)
              (particlesRef st').
Proof.
  intros Hc Hg Hd.
  destruct (animate_Normal now rand st c Hc Hd) as [c' Hrun].
  eexists. split; [exact Hrun |]. simpl.
  assert (Hmode : GestureType_eqb (gesture st) FIST = false)
    by (destruct (gesture st); [congruence | reflexivity | reflexivity]).
  unfold stepped. rewrite Hmode.
  apply updateFrom_Forall. intros i p _. unfold update.
  apply openUpdate_speed.
Qed.

Lemma open_mode_speed_bound_witness :
  exists st',
    animate 0 calm leftEdge = Js.Normal st'
    /\ Forall (fun p => - 12 <= vx p <= 12 /\ - 12 <= vy p <= 12)
              (particlesRef st').
Proof.
  apply (open_mode_speed_bound 0 calm leftEdge blankContext).
  - reflexivity.
  - discriminate.
  - repeat constructor. simpl. lra.
Defined.

End OpenModeVelocity.

(* ------------------------------------------------------------------ *)
(** ** ParticleEngine: seeding, resizing and the pointer *)
(* ------------------------------------------------------------------ *)

Section Seeding.

Import ParticleCanvas.



(** X4. Resizing. A resize never reseeds or moves a population that exists;
    particles that the new size has left outside come back onto the
    surface with the next open-mode frame. *)
Theorem resize_then_open_frame
    (w h now : R) (rand1 rand2 : nat -> R) (st : Component)
    (c : Canvas.Context2D) :
  ctx st = Some c ->
  particlesRef st <> [] ->
  drawable (particlesRef st) ->
  gesture st <> FIST ->
  0 <= w -> 0 <= h ->
  particlesRef (handleResize w h rand1 st) = particlesRef st
  /\ exists st',
      run [Resize w h rand1; Frame now rand2] st = Js.Normal st'
      /\ dimensionsRef st' = mkDimensions w h
      /\ List.length (particlesRef st') = List.length (particlesRef st)
      /\ Forall (onSurface (mkDimensions w h)) (particlesRef st').
Proof.
  intros Hc Hne Hd Hg Hw Hh.
  pose proof (handleResize_keeps w h rand1 st Hne) as Hkeep.
  split; [exact Hkeep |].
  cbn [run handle]. rewrite Hc. cbn [Js.bind].
  assert (Hc1 : ctx (handleResize w h rand1 st) = Some c) by exact Hc.
  assert (Hg1 : gesture (handleResize w h rand1 st) = gesture st) by reflexivity.
  assert (Hdim : dimensionsRef (handleResize w h rand1 st) = mkDimensions w h)
    by reflexivity.
  remember (handleResize w h rand1 st) as st1 eqn:Hst1.
  assert (Hd1 : drawable (particlesRef st1)) by (rewrite Hkeep; exact Hd).
  destruct (animate_Normal now rand2 st1 c Hc1 Hd1) as [c' Hrun].
  rewrite Hrun. cbn [Js.bind].
  eexists. split; [reflexivity |]. cbn [dimensionsRef particlesRef].
  split; [exact Hdim |]. split.
  - unfold stepped. rewrite updateFrom_length, Hkeep. reflexivity.
  - assert (Hmode : GestureType_eqb (gesture st1) FIST = false).
    { rewrite Hg1.
      destruct (gesture st); [congruence | reflexivity | reflexivity]. }
    unfold stepped. rewrite Hmode, Hdim.
    apply updateFrom_Forall. intros i p _. unfold update.
    apply openUpdate_onSurface; assumption.
Qed.

Lemma resize_then_open_frame_witness :
  exists st',
    run [Resize 50 40 calm; Frame 0 calm] leftEdge = Js.Normal st'
    /\ Forall (onSurface (mkDimensions 50 40)) (particlesRef st').
Proof.
  destruct (resize_then_open_frame 50 40 0 calm calm leftEdge blankContext)
    as (_ & st' & Hrun & _ & _ & Hall).
  - reflexivity.
  - discriminate.
  - repeat constructor. simpl. lra.
  - discriminate.
  - lra.
  - lra.
  - exists st'. split; [exact Hrun | exact Hall].
Defined.

End Seeding.

(* ------------------------------------------------------------------ *)
(** ** ParticleEngine: where the flower lies *)
(* ------------------------------------------------------------------ *)

Section FlowerShape.

Import ParticleCanvas.

Lemma product_bounded (s a b : R) :
  0 <= s -> -1 <= a <= 1 -> -1 <= b <= 1 -> - s <= s * a * b <= s.
Proof.
  intros Hs Ha Hb.
  assert (Hab : -1 <= a * b <= 1) by (split; nra).
  rewrite Rmult_assoc. split; nra.
Qed.

Lemma target_near_centre (index total centerX centerY w h : R) :
  0 <= w -> 0 <= h ->
  let t := calculateFlowerTarget index total centerX centerY w h in
  let scale := 0.35 * Rmin w h in
  centerX - scale <= Point.x t <= centerX + scale
  /\ centerY - scale <= Point.y t <= centerY + scale
  /\ (Point.x t - centerX) * (Point.x t - centerX)
     + (Point.y t - centerY) * (Point.y t - centerY) <= scale * scale.
Proof.
  intros Hw Hh t scale. unfold t, calculateFlowerTarget. cbn [Point.x Point.y].
  set (theta := index / total * PI * 2 * 4).
  assert (Hs : 0 <= Rmin w h * 0.35).
  { unfold Rmin. destruct (Rle_dec w h); lra. }
  replace scale with (Rmin w h * 0.35) by (unfold scale; ring).
  pose proof (COS_bound (5 * theta)) as H5.
  pose proof (COS_bound theta) as Hcos.
  pose proof (SIN_bound theta) as Hsin.
  pose proof (product_bounded _ _ _ Hs H5 Hcos) as Hx.
  pose proof (product_bounded _ _ _ Hs H5 Hsin) as Hy.
  split; [lra |]. split; [lra |].
  pose proof (sin2_cos2 theta) as Hone. unfold Rsqr in Hone.
  set (s := Rmin w h * 0.35) in *.
  set (k := cos (5 * theta)) in *.
  replace ((centerX + s * k * cos theta - centerX)
           * (centerX + s * k * cos theta - centerX)
           + (centerY + s * k * sin theta - centerY)
             * (centerY + s * k * sin theta - centerY))
    with (s * s * (k * k) * (sin theta * sin theta + cos theta * cos theta))
    by ring.
  rewrite Hone. assert (Hk : k * k <= 1) by nra.
  assert (Hss : 0 <= s * s) by nra. nra.
Qed.



(** X6. A change of gesture runs the effect again, which puts the pointer
    back in the centre of the window: right after it every target lies on
    the surface, whatever the pointer was before. *)
Theorem gesture_change_centres_flower
    (g : GestureType) (w h : R) (rand : nat -> R) (st : Component)
    (c : Canvas.Context2D) (i : nat) :
  ctx st = Some c -> 0 <= w -> 0 <= h ->
  let st' := effect g w h rand st in
  mouseRef st' = Point.mk (w / 2) (h / 2)
  /\ 0 <= Point.x (targetOf st' i) <= w
  /\ 0 <= Point.y (targetOf st' i) <= h.
Proof.
  intros Hc Hw Hh st'.
  assert (Hmouse : mouseRef st' = Point.mk (w / 2) (h / 2))
    by (unfold st', effect; rewrite Hc; reflexivity).
  assert (Hdims : dimensionsRef st' = mkDimensions w h)
    by (unfold st', effect; rewrite Hc; reflexivity).
  split; [exact Hmouse |].
  unfold targetOf. rewrite Hmouse, Hdims. cbn [Point.x Point.y width height].
  destruct (target_near_centre (INR i) (INR (List.length (particlesRef st')))
              (w / 2) (h / 2) w h Hw Hh) as (Hx & Hy).
  assert (Hmin : Rmin w h <= w /\ Rmin w h <= h)
    by (split; [apply Rmin_l | apply Rmin_r]).
  split; lra.
Qed.

Lemma gesture_change_centres_flower_witness :
  let st' := effect FIST 100 100 calm rightEdge in
  mouseRef st' = Point.mk (100 / 2) (100 / 2)
  /\ 0 <= Point.x (targetOf st' 0) <= 100
  /\ 0 <= Point.y (targetOf st' 0) <= 100.
Proof.
  apply (gesture_change_centres_flower FIST 100 100 calm rightEdge blankContext 0).
  - reflexivity.
  - lra.
  - lra.
Defined.



End FlowerShape.

(* ------------------------------------------------------------------ *)
(** ** ParticleEngine: what a frame paints *)
(* ------------------------------------------------------------------ *)

Section Painting.

Import ParticleCanvas.

Lemma draw_painted (isFlowerMode : bool) (p : Particle) (c c' : Canvas.Context2D) :
  draw isFlowerMode p c = Js.Normal c' ->
  Canvas.painted c'
  = Canvas.painted c
    ++ [Canvas.mkFill [Canvas.mkArc (x p) (y p) (size p) 0 (PI * 2)] (color p)
                      (Canvas.shadowBlur c) (Canvas.shadowColor c)]
  /\ Canvas.shadowBlur c' = (if isFlowerMode then 10 else 0)
  /\ Canvas.shadowColor c' = (if isFlowerMode then color p else Canvas.shadowColor c).
Proof.
  unfold draw, Canvas.arc.
  destruct (Rlt_dec (size p) 0); [discriminate |]. cbn [Js.bind].
  intro H. injection H as <-.
  destruct isFlowerMode; repeat split; reflexivity.
Qed.

Lemma forEach_painted (isFlowerMode : bool) (now : R) (rand : nat -> R)
    (mouse : Point.t) (d : Dimensions) (total : nat) (ps : list Particle) :
  forall i c ps' c',
    forEach isFlowerMode now rand mouse d total i ps c = Js.Normal (ps', c') ->
    Canvas.painted c'
    = Canvas.painted c
      ++ fills isFlowerMode (Canvas.shadowBlur c) (Canvas.shadowColor c) ps'.
Proof.
  induction ps as [| p ps IH]; intros i c ps' c' H; cbn [forEach] in H.
  - injection H as <- <-. cbn [fills]. rewrite app_nil_r. reflexivity.
  - destruct (draw isFlowerMode (update isFlowerMode now rand mouse d total i p) c)
      as [c1 | e] eqn:Hdraw; [| discriminate].
    cbn [Js.bind] in H.
    destruct (forEach isFlowerMode now rand mouse d total (S i) ps c1)
      as [[ps1 c2] | e] eqn:Hrest; [| discriminate].
    cbn [Js.bind fst snd] in H. injection H as <- <-.
    apply IH in Hrest. apply draw_painted in Hdraw.
    destruct Hdraw as (Hp & Hb & Hg).
    rewrite Hrest, Hp, Hb, Hg, <- app_assoc. reflexivity.
Qed.

Lemma fills_length (isFlowerMode : bool) (ps : list Particle) :
  forall blur glow, List.length (fills isFlowerMode blur glow ps) = List.length ps.
Proof.
  induction ps as [| p ps IH]; intros blur glow; cbn [fills List.length];
    [| rewrite IH]; reflexivity.
Qed.

Lemma fills_later_blur (isFlowerMode : bool) (ps : list Particle) :
  forall blur glow k fl,
    nth_error (fills isFlowerMode blur glow ps) (S k) = Some fl ->
    Canvas.blur fl = (if isFlowerMode then 10 else 0).
Proof.
  induction ps as [| p ps IH]; intros blur glow k fl H; [discriminate |].
  cbn [fills nth_error] in H.
  destruct ps as [| q ps]; [destruct k; discriminate |].
  destruct k as [| k].
  - cbn [fills nth_error] in H. injection H as <-. reflexivity.
  - eapply IH. exact H.
Qed.

(** X8. What a frame leaves on the canvas. The previous frame is erased and
    one disc is painted per particle, in index order, at the particle's
    new position, with its radius and its new colour. The glow is set
    after a disc is filled, so it is the next disc that gets it: the first
    disc of a frame is painted with the shadow the context had before the
    frame, every later disc with blur 10 in flower mode and 0 in open mode.
    The frame ends with the blur back at 0. *)
Theorem frame_paints_every_particle
    (now : R) (rand : nat -> R) (st : Component) (c : Canvas.Context2D) :
  ctx st = Some c ->
  drawable (particlesRef st) ->
  exists st' c',
    animate now rand st = Js.Normal st'
    /\ ctx st' = Some c'
    /\ Canvas.painted c'
       = fills (GestureType_eqb (gesture st) FIST)
               (Canvas.shadowBlur c) (Canvas.shadowColor c) (particlesRef st')
    /\ List.length (Canvas.painted c') = List.length (particlesRef st)
    /\ (forall fl, nth_error (Canvas.painted c') 0 = Some fl ->
                   Canvas.blur fl = Canvas.shadowBlur c)
    /\ (forall k fl, nth_error (Canvas.painted c') (S k) = Some fl ->
                     Canvas.blur fl
                     = if GestureType_eqb (gesture st) FIST then 10 else 0)
    /\ Canvas.shadowBlur c' = 0.
Proof.
  intros Hc Hd. unfold animate. rewrite Hc.
  destruct (forEach_Normal (GestureType_eqb (gesture st) FIST) now rand
              (mouseRef st)
              (mkDimensions (width (dimensionsRef st)) (height (dimensionsRef st)))
              (List.length (particlesRef st)) (particlesRef st) Hd 0
              (Canvas.clearRect c))
    as [c1 Hloop].
  rewrite Hloop. cbn [Js.bind fst snd].
  pose proof (forEach_painted _ _ _ _ _ _ _ _ _ _ _ Hloop) as Hpainted.
  cbn [Canvas.clearRect Canvas.painted Canvas.shadowBlur Canvas.shadowColor app]
    in Hpainted.
  eexists. eexists. split; [reflexivity |]. cbn [ctx particlesRef].
  split; [reflexivity |].
  cbn [Canvas.set_shadowBlur Canvas.painted Canvas.shadowBlur].
  rewrite Hpainted.
  split; [reflexivity |].
  split; [rewrite fills_length; apply updateFrom_length |].
  split; [| split; [| reflexivity]].
  - intros fl H.
    destruct (updateFrom _ _ _ _ _ _ _ _) as [| p ps]; [discriminate |].
    cbn [fills nth_error] in H. injection H as <-. reflexivity.
  - intros k fl H. eapply fills_later_blur. exact H.
Qed.

Lemma frame_paints_every_particle_witness :
  exists st' c',
    animate 0 calm blooming = Js.Normal st'
    /\ ctx st' = Some c'
    /\ List.length (Canvas.painted c') = 2%nat
    /\ Canvas.shadowBlur c' = 0.
Proof.
  destruct (frame_paints_every_particle 0 calm blooming blankContext)
    as (st' & c' & Hrun & Hctx & _ & Hlen & _ & _ & Hblur).
  - reflexivity.
  - repeat constructor; simpl; lra.
  - exists st', c'. repeat split; assumption.
Defined.

End Painting.

(* ------------------------------------------------------------------ *)
(** ** ParticleEngine: dragging the flower, and where it ends *)
(* ------------------------------------------------------------------ *)

Section Dragging.

Import ParticleCanvas.

(** X9. Dragging. A pointer move shifts every target by the displacement of
    the pointer, and the next flower frame already eases towards the
    shifted target. *)
Theorem pointer_move_drags_flower
    (clientX clientY now : R) (rand : nat -> R) (st : Component)
    (c : Canvas.Context2D) :
  ctx st = Some c -> gesture st = FIST -> drawable (particlesRef st) ->
  exists st',
    run [MouseMove clientX clientY; Frame now rand] st = Js.Normal st'
    /\ forall i p,
        nth_error (particlesRef st) i = Some p ->
        exists p',
          nth_error (particlesRef st') i = Some p'
          /\ x p' = x p + 0.05 * (Point.x (targetOf st i)
                                  + (clientX - Point.x (mouseRef st)) - x p)
          /\ y p' = y p + 0.05 * (Point.y (targetOf st i)
                                  + (clientY - Point.y (mouseRef st)) - y p).
Proof.
  intros Hc Hg Hd.
  cbn [run handle]. rewrite Hc. cbn [Js.bind].
  destruct (animate_flower now rand (handleMouseMove clientX clientY st) c
              Hc Hg Hd)
    as (st' & Hrun & _ & Hstep).
  rewrite Hrun. cbn [Js.bind].
  exists st'. split; [reflexivity |].
  intros i p Hp. eexists. split; [apply Hstep; exact Hp |].
  unfold flowerUpdate, targetOf, calculateFlowerTarget, handleMouseMove.
  cbn [x y mouseRef dimensionsRef particlesRef Point.x Point.y].
  split; lra.
Qed.

Lemma pointer_move_drags_flower_witness :
  exists st',
    run [MouseMove 60 70; Frame 0 calm] blooming = Js.Normal st'
    /\ forall i p,
        nth_error (particlesRef blooming) i = Some p ->
        exists p',
          nth_error (particlesRef st') i = Some p'
          /\ x p' = x p + 0.05 * (Point.x (targetOf blooming i)
                                  + (60 - Point.x (mouseRef blooming)) - x p)
          /\ y p' = y p + 0.05 * (Point.y (targetOf blooming i)
                                  + (70 - Point.y (mouseRef blooming)) - y p).
Proof.
  apply (pointer_move_drags_flower 60 70 0 calm blooming blankContext).
  - reflexivity.
  - reflexivity.
  - repeat constructor; simpl; lra.
Defined.




End Dragging.

(* ------------------------------------------------------------------ *)
(** ** GestureState: any sequence of events *)
(* ------------------------------------------------------------------ *)

Section GestureStateRuns.

Import App.

Lemma lastShift_snoc (es : list Event) (e : Event) (b : bool) :
  lastShift (es ++ [e]) b
  = match e with
    | KeyDown key => if Js.eqb key (Js.lit "Shift") then true else lastShift es b
    | KeyUp key => if Js.eqb key (Js.lit "Shift") then false else lastShift es b
    | GestureDetected _ => lastShift es b
    end.
Proof. unfold lastShift. rewrite fold_left_app. reflexivity. Qed.

Lemma isShiftPressed_run (es : list Event) (st : State) :
  isShiftPressed (run es st) = lastShift es (isShiftPressed st).
Proof.
  induction es as [| e es IH] using rev_ind; [reflexivity |].
  rewrite run_app_snoc, lastShift_snoc.
  destruct e as [key | key | g]; simpl;
    unfold handleKeyDown, handleKeyUp;
    try destruct (Js.eqb key _); simpl; auto.
Qed.

(** X11. After any sequence of key events and published labels the
    authoritative gesture is [FIST] if the last Shift event was a press,
    and otherwise the last label published, however the two kinds of
    events were interleaved; a key other than Shift changes nothing. *)
Theorem authoritative_gesture_after (es : list Event) (st : State) :
  currentGesture (run es st)
  = (if lastShift es (isShiftPressed st) then FIST
     else lastPublished es (cameraGesture st))
  /\ (forall key, key <> Js.lit "Shift" ->
                  run (es ++ [KeyDown key]) st = run es st
                  /\ run (es ++ [KeyUp key]) st = run es st).
Proof.
  split.
  - unfold currentGesture. rewrite isShiftPressed_run, cameraGesture_run.
    reflexivity.
  - intros key Hkey. rewrite !run_app_snoc. simpl.
    unfold handleKeyDown, handleKeyUp.
    destruct (Js.eqb key (Js.lit "Shift")) eqn:E.
    + apply eqb_eq in E. contradiction.
    + split; reflexivity.
Qed.

Lemma authoritative_gesture_after_witness :
  run ([GestureDetected OPEN; KeyDown (Js.lit "Shift")] ++ [KeyDown (Js.lit "a")])
      initial
  = run [GestureDetected OPEN; KeyDown (Js.lit "Shift")] initial.
Proof.
  apply (proj2 (authoritative_gesture_after
                  [GestureDetected OPEN; KeyDown (Js.lit "Shift")] initial)).
  vm_compute. discriminate.
Defined.

End GestureStateRuns.

(* ------------------------------------------------------------------ *)
(** ** CameraSource: teardown and consistency *)
(* ------------------------------------------------------------------ *)

Section Teardown.

Import Js GestureControl.

Lemma stopCamera_clears (st : State) :
  streamRef (stopCamera st) = None
  /\ isCameraReady (stopCamera st) = false
  /\ (forall video, videoRef (stopCamera st) = Some video ->
                    srcObject video = None)
  /\ (forall s, streamRef st = Some s -> In s (stopped (stopCamera st)))
  /\ (forall s, In s (stopped st) -> In s (stopped (stopCamera st)))
  /\ stopCamera (stopCamera st) = stopCamera st.
Proof.
  destruct st as [v c s r e p cl rq sp inf pub]. unfold stopCamera.
  destruct s as [stream |]; destruct v as [video |]; cbn;
    repeat split; try reflexivity;
    try (intros video' H; injection H as <-; reflexivity);
    try discriminate;
    try (intros s0 H; injection H as <-; apply in_or_app; right; left; reflexivity);
    try (intros s0 H; apply in_or_app; left; exact H);
    try (intros s0 H; exact H).
Qed.

(** X12. Teardown. [stopCamera] leaves no stream held, the video element
    detached and the source not ready; the stream that was held is among
    the stopped ones and no stopped stream is forgotten. Tearing down
    twice is tearing down once. *)
Theorem stopCamera_teardown (st : State) :
  streamRef (stopCamera st) = None
  /\ isCameraReady (stopCamera st) = false
  /\ (forall video, videoRef (stopCamera st) = Some video ->
                    srcObject video = None)
  /\ (forall s, streamRef st = Some s -> In s (stopped (stopCamera st)))
  /\ (forall s, In s (stopped st) -> In s (stopped (stopCamera st)))
  /\ stopCamera (stopCamera st) = stopCamera st.
Proof. exact (stopCamera_clears st). Qed.

Lemma stopCamera_teardown_witness :
  In 7%nat (stopped (stopCamera (startCamera onlyByIdentity fresh))).
Proof.
  apply (proj1 (proj2 (proj2 (proj2
           (stopCamera_teardown (startCamera onlyByIdentity fresh)))))).
  vm_compute. reflexivity.
Defined.

Lemma stopCamera_stopped (st : State) :
  stopped (stopCamera st)
  = stopped st ++ match streamRef st with Some s => [s] | None => [] end.
Proof.
  destruct st as [v c s r e p cl rq sp inf pub]. unfold stopCamera.
  destruct s; destruct v; cbn; rewrite ?app_nil_r; reflexivity.
Qed.

Lemma startCamera_stopped (md : MediaDevices) (st : State) :
  stopped (startCamera md st) = stopped (stopCamera st).
Proof.
  unfold startCamera.
  set (st0 := setError None (stopCamera st)).
  change (stopped (stopCamera st)) with (stopped st0).
  clearbody st0.
  assert (Hsuccess : forall s st1, stopped (handleStreamSuccess s st1) = stopped st1).
  { intros s st1. unfold handleStreamSuccess.
    destruct st1 as [v c s1 r e p cl rq sp inf pub]. cbn.
    destruct v; reflexivity. }
  repeat match goal with
         | |- context [match ?x with _ => _ end] => destruct x
         end;
    rewrite ?Hsuccess; reflexivity.
Qed.

(** X13. Retry. [startCamera] stops the stream it held before it asks for a
    new one, and it stops nothing else: after it the stopped streams are
    the ones stopped before plus the one that was held. *)
Theorem startCamera_releases_previous_stream (md : MediaDevices) (st : State) :
  stopped (startCamera md st)
  = stopped st ++ match streamRef st with Some s => [s] | None => [] end.
Proof. rewrite startCamera_stopped. apply stopCamera_stopped. Qed.

End Teardown.

Section CameraConsistency.

Import Js GestureControl.

Lemma cameraConsistent_after_start (md : MediaDevices) (st : State) :
  cameraConsistent (startCamera md st).
Proof.
  unfold startCamera.
  set (st0 := setError None (stopCamera st)).
  assert (H0 : streamRef st0 = None /\ isCameraReady st0 = false
               /\ forall video, videoRef st0 = Some video -> srcObject video = None).
  { destruct (stopCamera_clears st) as (Hs & Hr & Hv & _).
    unfold st0. cbn. auto. }
  clearbody st0.
  destruct st0 as [v c s r e p cl rq sp inf pub]. cbn in H0.
  destruct H0 as (-> & -> & Hv).
  assert (Hsuccess : forall stream rq',
             cameraConsistent
               (handleStreamSuccess stream
                  (mkState v c None false e p cl rq' sp inf pub))).
  { intros stream rq'. unfold handleStreamSuccess, cameraConsistent.
    destruct v as [video |]; cbn; repeat split; try discriminate; try reflexivity.
    intros video' H. injection H as <-. reflexivity. }
  assert (Hfailure : forall err rq',
             cameraConsistent
               (handleError err (mkState v c None false e p cl rq' sp inf pub))).
  { intros err rq'. unfold handleError, cameraConsistent. cbn.
    repeat split; try discriminate; try congruence.
    exact Hv. }
  unfold request. cbn.
  repeat match goal with
         | |- context [match ?x with _ => _ end] => destruct x
         end;
    first [apply Hsuccess | apply Hfailure].
Qed.

Lemma cameraConsistent_same (st st' : State) :
  cameraConsistent st ->
  videoRef st' = videoRef st -> streamRef st' = streamRef st ->
  isCameraReady st' = isCameraReady st -> error st' = error st ->
  cameraConsistent st'.
Proof.
  intros (Hvideo & Hready & Herror) H1 H2 H3 H4. unfold cameraConsistent.
  rewrite H1, H2, H3, H4. repeat split; assumption.
Qed.

Lemma captureAndAnalyze_camera (w h : nat) (dataURL : Completion jsstring)
    (st : State) :
  let st' := captureAndAnalyze w h dataURL st in
  videoRef st' = videoRef st /\ streamRef st' = streamRef st
  /\ isCameraReady st' = isCameraReady st /\ error st' = error st.
Proof.
  unfold captureAndAnalyze.
  destruct (videoRef st) eqn:Hv; [| cbv zeta; rewrite Hv; auto].
  destruct (canvasRef st) as [cv |]; [| cbv zeta; rewrite Hv; auto].
  destruct (negb (fst (closure st)) || snd (closure st));
    [cbv zeta; rewrite Hv; auto |].
  destruct (Nat.eqb w 0 || Nat.eqb h 0); [cbv zeta; rewrite Hv; auto |].
  destruct (has2d cv); [| cbn; rewrite Hv; auto].
  destruct dataURL; cbn; rewrite Hv; auto.
Qed.

Lemma settle_camera (outcome : Completion Value) (st : State) :
  let st' := settle outcome st in
  videoRef st' = videoRef st /\ streamRef st' = streamRef st
  /\ isCameraReady st' = isCameraReady st /\ error st' = error st.
Proof.
  unfold settle. destruct (inFlight st); [cbv zeta; auto |].
  destruct outcome; cbn; auto.
Qed.

Lemma cameraConsistent_step (st : State) (e : Event) :
  cameraConsistent st -> cameraConsistent (step st e).
Proof.
  intro Hinv. unfold step.
  destruct e as [md | | w h dataURL | outcome].
  - pose proof (cameraConsistent_after_start md st) as H. exact H.
  - destruct Hinv as (Hvideo & Hready & Herror).
    unfold loadedmetadata.
    destruct (videoRef st) as [video |] eqn:Hv;
      [| apply (cameraConsistent_same st); try reflexivity;
         repeat split; try assumption; rewrite Hv; discriminate].
    pose proof (Hvideo video eq_refl) as Hsrc.
    assert (Hkeep : cameraConsistent (commit st)).
    { apply (cameraConsistent_same st); try reflexivity.
      repeat split; try assumption. rewrite Hv. intros v' H.
      injection H as <-. exact Hsrc. }
    destruct (srcObject video) as [s |] eqn:Hs; [| exact Hkeep].
    destruct (onloadedmetadata video); [| exact Hkeep].
    unfold cameraConsistent. cbn. repeat split.
    + intros video' H. injection H as <-. cbn. congruence.
    + intros _. congruence.
    + exact Herror.
  - destruct (captureAndAnalyze_camera w h dataURL st) as (H1 & H2 & H3 & H4).
    apply (cameraConsistent_same st); assumption.
  - destruct (settle_camera outcome st) as (H1 & H2 & H3 & H4).
    apply (cameraConsistent_same st); assumption.
Qed.

(** X14. Consistency of the camera. From a mount with an unbound video
    element, after any sequence of events: the video element shows exactly
    the stream the component holds; the source is ready only while a
    stream is held; an error is shown only while none is, so never
    together with a ready source. *)
Theorem camera_stays_consistent
    (video : option Video) (canvas : option CanvasElement) (es : list Event) :
  (forall v, video = Some v -> srcObject v = None) ->
  let st := run es (initial video canvas) in
  (forall v, videoRef st = Some v -> srcObject v = streamRef st)
  /\ (isCameraReady st = true -> exists s, streamRef st = Some s)
  /\ (forall msg, error st = Some msg ->
                  streamRef st = None /\ isCameraReady st = false).
Proof.
  intros Hunbound st.
  assert (Hinv : cameraConsistent st).
  { unfold st. induction es as [| e es IH] using rev_ind.
    - unfold cameraConsistent. cbn. repeat split; try discriminate.
      exact Hunbound.
    - rewrite run_sampler_snoc. apply cameraConsistent_step. exact IH. }
  destruct Hinv as (Hvideo & Hready & Herror).
  split; [exact Hvideo |]. split.
  - intro Hr. destruct (streamRef st) as [s |] eqn:Hs; [eauto |].
    exfalso. apply (Hready Hr). reflexivity.
  - intros msg Hmsg.
    destruct (streamRef st) as [s |] eqn:Hs.
    + rewrite Herror in Hmsg by discriminate. discriminate.
    + split; [reflexivity |].
      destruct (isCameraReady st) eqn:Hr; [| reflexivity].
      exfalso. apply (Hready eq_refl). reflexivity.
Qed.

Lemma camera_stays_consistent_witness :
  exists s, streamRef (run firstTick fresh) = Some s.
Proof.
  destruct (camera_stays_consistent
              (Some (mkVideo None false false)) (Some (mkCanvas 300 150 true))
              firstTick)
    as (_ & Hready & _).
  - intros v H. injection H as <-. reflexivity.
  - apply Hready. vm_compute. reflexivity.
Defined.

End CameraConsistency.

(* ------------------------------------------------------------------ *)
(** ** GestureSampler: when a tick works, and what is published *)
(* ------------------------------------------------------------------ *)

Section Sampling.

Import Js GestureControl.

(** X15. The sampler is idle without a ready camera: after any sequence of
    events, a tick that comes while the source is not ready, or while the
    video or the canvas element is missing, leaves the state as it is. *)
Theorem tick_needs_ready_camera
    (video : option Video) (canvas : option CanvasElement) (es : list Event)
    (w h : nat) (dataURL : Completion jsstring) :
  let st := run es (initial video canvas) in
  isCameraReady st = false \/ videoRef st = None \/ canvasRef st = None ->
  step st (Tick w h dataURL) = st.
Proof.
  intros st Hidle.
  destruct (run_singleFlight es video canvas) as [Hcl _]. fold st in Hcl.
  unfold step. rewrite <- (commit_in_sync st Hcl) at 2. f_equal.
  unfold captureAndAnalyze. rewrite Hcl. cbn [fst snd].
  destruct Hidle as [Hr | [Hv | Hc]].
  - rewrite Hr. cbn.
    destruct (videoRef st); [| reflexivity].
    destruct (canvasRef st); reflexivity.
  - rewrite Hv. reflexivity.
  - rewrite Hc. destruct (videoRef st); reflexivity.
Qed.

Lemma tick_needs_ready_camera_witness :
  step (run [Start refused] fresh) (Tick 320 240 (Normal someImage))
  = run [Start refused] fresh.
Proof.
  apply (tick_needs_ready_camera
           (Some (mkVideo None false false)) (Some (mkCanvas 300 150 true))
           [Start refused] 320 240 (Normal someImage)).
  left. vm_compute. reflexivity.
Defined.

(** X16. A capture that fails is absorbed. When the canvas gives no 2D
    context, or drawing or encoding the frame throws, the tick starts no
    call and leaves the busy flag down; nothing is published and no camera
    error is shown. *)
Theorem failed_capture_is_absorbed
    (video : option Video) (canvas : option CanvasElement) (es : list Event)
    (w h : nat) (dataURL : Completion jsstring) :
  let st := run es (initial video canvas) in
  (exists err, dataURL = Throw err)
  \/ (exists cv, canvasRef st = Some cv /\ has2d cv = false) ->
  let st' := step st (Tick w h dataURL) in
  isProcessing st' = isProcessing st
  /\ inFlight st' = inFlight st
  /\ published st' = published st
  /\ error st' = error st
  /\ isCameraReady st' = isCameraReady st.
Proof.
  intros st Hfail st'. unfold st', step.
  destruct (run_singleFlight es video canvas) as [Hcl Hflag]. fold st in Hcl, Hflag.
  unfold captureAndAnalyze. rewrite Hcl. cbn [fst snd].
  destruct (videoRef st); [| repeat split; reflexivity].
  destruct (canvasRef st) as [cv |] eqn:Hcv; [| repeat split; reflexivity].
  destruct (negb (isCameraReady st) || isProcessing st) eqn:Hguard;
    [repeat split; reflexivity |].
  assert (Hidle : isProcessing st = false).
  { destruct (isProcessing st); [| reflexivity].
    rewrite orb_true_r in Hguard. discriminate. }
  destruct (Nat.eqb w 0 || Nat.eqb h 0); [repeat split; reflexivity |].
  destruct Hfail as [[err ->] | (cv' & Heq & Hno)].
  - destruct (has2d cv); cbn; rewrite Hidle; repeat split; reflexivity.
  - injection Heq as <-. rewrite Hno. cbn. rewrite Hidle.
    repeat split; reflexivity.
Qed.

Lemma failed_capture_is_absorbed_witness :
  let st := run [Start onlyByIdentity; LoadedMetadata] fresh in
  let st' := step st (Tick 320 240 (Throw (TypeError "tainted"))) in
  isProcessing st' = isProcessing st
  /\ inFlight st' = inFlight st
  /\ published st' = published st
  /\ error st' = error st
  /\ isCameraReady st' = isCameraReady st.
Proof.
  apply (failed_capture_is_absorbed
           (Some (mkVideo None false false)) (Some (mkCanvas 300 150 true))
           [Start onlyByIdentity; LoadedMetadata] 320 240
           (Throw (TypeError "tainted"))).
  left. eexists. reflexivity.
Defined.

(** X17. A tick that works. With the source ready, both elements present, a
    2D context, a frame of non-zero size, nothing pending and an encoding
    that succeeds, the tick sizes the canvas to the frame, hands the image
    to the classifier and raises the busy flag; it publishes nothing yet. *)
Theorem tick_starts_classification
    (video : option Video) (canvas : option CanvasElement) (es : list Event)
    (w h : nat) (image : jsstring) (v : Video) (cv : CanvasElement) :
  let st := run es (initial video canvas) in
  isCameraReady st = true -> isProcessing st = false ->
  videoRef st = Some v -> canvasRef st = Some cv -> has2d cv = true ->
  w <> 0%nat -> h <> 0%nat ->
  let st' := step st (Tick w h (Normal image)) in
  inFlight st' = [image]
  /\ isProcessing st' = true
  /\ canvasRef st' = Some (mkCanvas w h true)
  /\ published st' = published st.
Proof.
  intros st Hr Hp Hv Hc H2d Hw Hh st'. unfold st', step.
  destruct (run_singleFlight es video canvas) as [Hcl Hflag]. fold st in Hcl, Hflag.
  assert (Hnone : inFlight st = []).
  { destruct Hflag as [[_ Hf] | [Hbusy _]]; [exact Hf | congruence]. }
  unfold captureAndAnalyze. rewrite Hcl, Hv, Hc, Hr, Hp, H2d. cbn [fst snd negb orb].
  apply Nat.eqb_neq in Hw. apply Nat.eqb_neq in Hh. rewrite Hw, Hh. cbn.
  rewrite Hnone. repeat split; reflexivity.
Qed.

Lemma tick_starts_classification_witness :
  let st := run [Start onlyByIdentity; LoadedMetadata] fresh in
  let st' := step st (Tick 320 240 (Normal someImage)) in
  inFlight st' = [someImage]
  /\ isProcessing st' = true
  /\ canvasRef st' = Some (mkCanvas 320 240 true)
  /\ published st' = published st.
Proof.
  apply (tick_starts_classification
           (Some (mkVideo None false false)) (Some (mkCanvas 300 150 true))
           [Start onlyByIdentity; LoadedMetadata] 320 240 someImage
           (mkVideo (Some 7%nat) true true) (mkCanvas 300 150 true));
    try (vm_compute; reflexivity); discriminate.
Defined.

(** X18. Publication. After any sequence of events, the settlement of the
    pending call publishes its value if the call is fulfilled and nothing
    if it is rejected; a settlement with no call pending and every other
    event publish nothing. *)
Theorem publication_only_on_fulfilment
    (video : option Video) (canvas : option CanvasElement) (es : list Event) :
  let st := run es (initial video canvas) in
  (forall g, isProcessing st = true ->
             published (step st (Settle (Normal g))) = published st ++ [g])
  /\ (forall err, published (step st (Settle (Throw err))) = published st)
  /\ (forall outcome, isProcessing st = false ->
                      step st (Settle outcome) = st)
  /\ (forall e, (forall g, e <> Settle (Normal g)) ->
                published (step st e) = published st).
Proof.
  intro st.
  destruct (run_singleFlight es video canvas) as [Hcl Hflag]. fold st in Hcl, Hflag.
  assert (Hstart : forall md, published (startCamera md st) = published st).
  { intro md. unfold startCamera.
    assert (H0 : published (setError None (stopCamera st)) = published st).
    { destruct st as [v c s r e p cl rq sp inf pub]. unfold stopCamera.
      destruct s; destruct v; reflexivity. }
    revert H0. generalize (setError None (stopCamera st)) as st0. intros st0 H0.
    assert (Hsuccess : forall s st1,
               published (handleStreamSuccess s st1) = published st1).
    { intros s st1. unfold handleStreamSuccess.
      destruct st1 as [v c s1 r e p cl rq sp inf pub]. cbn.
      destruct v; reflexivity. }
    repeat match goal with
           | |- context [match ?x with _ => _ end] => destruct x
           end;
      rewrite ?Hsuccess; exact H0. }
  assert (Hmeta : published (loadedmetadata st) = published st).
  { unfold loadedmetadata.
    destruct (videoRef st) as [v |]; [| reflexivity].
    destruct (srcObject v); [| reflexivity].
    destruct (onloadedmetadata v); reflexivity. }
  assert (Htick : forall w h d, published (captureAndAnalyze w h d st) = published st).
  { intros w h d. unfold captureAndAnalyze.
    destruct (videoRef st); [| reflexivity].
    destruct (canvasRef st) as [cv |]; [| reflexivity].
    destruct (negb (fst (closure st)) || snd (closure st)); [reflexivity |].
    destruct (Nat.eqb w 0 || Nat.eqb h 0); [reflexivity |].
    destruct (has2d cv); [| reflexivity].
    destruct d; reflexivity. }
  split; [| split; [| split]].
  - intros g Hbusy. unfold step, settle.
    destruct Hflag as [[Hp _] | [_ (image & Hf)]]; [congruence |].
    rewrite Hf. reflexivity.
  - intro err. unfold step, settle.
    destruct (inFlight st); reflexivity.
  - intros outcome Hidle. unfold step, settle.
    destruct Hflag as [[_ Hf] | [Hp _]]; [| congruence].
    rewrite Hf. apply commit_in_sync. exact Hcl.
  - intros e Hother. unfold step.
    change (published (commit ?s)) with (published s).
    destruct e as [md | | w h d | [g | err]].
    + apply Hstart.
    + exact Hmeta.
    + apply Htick.
    + exfalso. apply (Hother g). reflexivity.
    + unfold settle. destruct (inFlight st); reflexivity.
Qed.

Lemma publication_only_on_fulfilment_witness :
  let st := run firstTick fresh in
  published (step st (Settle (Normal (GestureType_value FIST))))
  = published st ++ [GestureType_value FIST].
Proof.
  intro st.
  destruct (publication_only_on_fulfilment
              (Some (mkVideo None false false)) (Some (mkCanvas 300 150 true))
              firstTick)
    as (Hfulfilled & _).
  apply Hfulfilled. vm_compute. reflexivity.
Defined.

End Sampling.

(* ------------------------------------------------------------------ *)
(** ** GestureClassifierClient: what is sent and what is read *)
(* ------------------------------------------------------------------ *)

Section ClassifierTexts.

Import Js Gemini.

Lemma stripPrefix_app (prefix rest : jsstring) :
  stripPrefix prefix (prefix ++ rest) = Some rest.
Proof.
  induction prefix as [| c prefix IH]; cbn; [reflexivity |].
  rewrite N.eqb_refl. exact IH.
Qed.

(** X19. The image is sent without its data URL header: a PNG, JPEG or WebP
    data URL loses exactly the header, and a string that does not start
    with [data:image/] is sent as it is. *)
Theorem removeDataUrlPrefix_strips_header (data : jsstring) :
  removeDataUrlPrefix (lit "data:image/png;base64," ++ data) = data
  /\ removeDataUrlPrefix (lit "data:image/jpeg;base64," ++ data) = data
  /\ removeDataUrlPrefix (lit "data:image/webp;base64," ++ data) = data
  /\ (stripPrefix (lit "data:image/") data = None ->
      removeDataUrlPrefix data = data).
Proof.
  split; [| split; [| split]].
  - unfold removeDataUrlPrefix. rewrite stripPrefix_app. reflexivity.
  - unfold removeDataUrlPrefix.
    replace (stripPrefix (lit "data:image/png;base64,")
               (lit "data:image/jpeg;base64," ++ data)) with (@None jsstring)
      by reflexivity.
    rewrite stripPrefix_app. reflexivity.
  - unfold removeDataUrlPrefix.
    replace (stripPrefix (lit "data:image/png;base64,")
               (lit "data:image/webp;base64," ++ data)) with (@None jsstring)
      by reflexivity.
    replace (stripPrefix (lit "data:image/jpeg;base64,")
               (lit "data:image/webp;base64," ++ data)) with (@None jsstring)
      by reflexivity.
    rewrite stripPrefix_app. reflexivity.
  - intro Hno. unfold removeDataUrlPrefix.
    assert (Hlonger : forall tail,
               stripPrefix (lit "data:image/" ++ tail) data = None).
    { intro tail. revert Hno. generalize (lit "data:image/") as prefix.
      intro prefix. revert data.
      induction prefix as [| c prefix IH]; intros data Hno; [discriminate |].
      cbn in *. destruct data as [| d data]; [reflexivity |].
      destruct (N.eqb c d); [apply IH; exact Hno | reflexivity]. }
    change (lit "data:image/png;base64,")
      with (lit "data:image/" ++ lit "png;base64,").
    change (lit "data:image/jpeg;base64,")
      with (lit "data:image/" ++ lit "jpeg;base64,").
    change (lit "data:image/webp;base64,")
      with (lit "data:image/" ++ lit "webp;base64,").
    rewrite !Hlonger. reflexivity.
Qed.

Lemma removeDataUrlPrefix_strips_header_witness :
  removeDataUrlPrefix (lit "/9j/4AAQ") = lit "/9j/4AAQ".
Proof.
  apply (proj2 (proj2 (proj2 (removeDataUrlPrefix_strips_header (lit "/9j/4AAQ"))))).
  reflexivity.
Defined.

Lemma dropSpaces_spaces (ws rest : jsstring) :
  Forall (fun c => isSpace c = true) ws ->
  dropSpaces (ws ++ rest) = dropSpaces rest.
Proof.
  induction 1 as [| c ws Hc Hws IH]; [reflexivity |].
  cbn [app dropSpaces]. rewrite Hc. exact IH.
Qed.

Lemma dropSpaces_solid (c : N) (rest : jsstring) :
  isSpace c = false -> dropSpaces (c :: rest) = c :: rest.
Proof. intro Hc. cbn [dropSpaces]. rewrite Hc. reflexivity. Qed.

Lemma sanitize_fenced
    (tagged : bool) (ws1 ws2 middle : jsstring) (first last : N) :
  Forall (fun c => isSpace c = true) ws1 ->
  Forall (fun c => isSpace c = true) ws2 ->
  isSpace first = false -> first <> 96%N -> isSpace last = false ->
  (tagged = false -> ws1 <> []) ->
  sanitize (fence tagged ws1 (first :: middle ++ [last]) ws2)
  = first :: middle ++ [last]
  /\ sanitize (first :: middle ++ [last]) = first :: middle ++ [last].
Proof.
  intros Hws1 Hws2 Hfirst Htick Hlast Htag.
  set (body := first :: middle ++ [last]).
  assert (Hfence : lit "```" = [96; 96; 96]%N) by reflexivity.
  assert (Hhead : forall tail, stripPrefix (lit "```") (body ++ tail) = None).
  { intro tail. unfold body. rewrite Hfence. cbn [app stripPrefix].
    destruct (N.eqb 96 first) eqn:E; [| reflexivity].
    apply N.eqb_eq in E. congruence. }
  assert (Htail : replaceTrailingFence (body ++ ws2 ++ lit "```") = body).
  { unfold replaceTrailingFence.
    assert (Hrev : rev body = last :: rev (first :: middle)).
    { unfold body.
      change (first :: middle ++ [last]) with ((first :: middle) ++ [last]).
      rewrite rev_app_distr. reflexivity. }
    rewrite !rev_app_distr, <- !app_assoc.
    change (rev (lit "```")) with (lit "```").
    rewrite stripPrefix_app.
    rewrite dropSpaces_spaces
      by (apply Forall_forall; intros c Hc; apply in_rev in Hc;
          revert c Hc; apply Forall_forall; exact Hws2).
    rewrite Hrev, dropSpaces_solid by exact Hlast.
    rewrite <- Hrev. apply rev_involutive. }
  assert (Hafter : dropSpaces (ws1 ++ body ++ ws2 ++ lit "```")
                   = body ++ ws2 ++ lit "```").
  { rewrite dropSpaces_spaces by exact Hws1.
    unfold body. cbn [app]. apply dropSpaces_solid. exact Hfirst. }
  split.
  - unfold sanitize, fence.
    replace (startsWith (lit "```" ++ (if tagged then lit "json" else [])
                         ++ ws1 ++ body ++ ws2 ++ lit "```") (lit "```"))
      with true by (unfold startsWith; rewrite stripPrefix_app; reflexivity).
    destruct tagged.
    + unfold replaceLeading at 2.
      change (lit "```" ++ lit "json" ++ ws1 ++ body ++ ws2 ++ lit "```")
        with (lit "```json" ++ ws1 ++ body ++ ws2 ++ lit "```").
      rewrite stripPrefix_app, Hafter.
      unfold replaceLeading. rewrite Hhead. exact Htail.
    + destruct ws1 as [| w ws1]; [exfalso; apply (Htag eq_refl); reflexivity |].
      assert (Hw : isSpace w = true) by (inversion Hws1; assumption).
      unfold replaceLeading at 2.
      replace (stripPrefix (lit "```json")
                 (lit "```" ++ [] ++ (w :: ws1) ++ body ++ ws2 ++ lit "```"))
        with (@None jsstring).
      * unfold replaceLeading. cbn [app]. rewrite stripPrefix_app.
        change (w :: ws1 ++ body ++ ws2 ++ lit "```")
          with ((w :: ws1) ++ body ++ ws2 ++ lit "```").
        rewrite Hafter. exact Htail.
      * change (lit "```json") with [96; 96; 96; 106; 115; 111; 110]%N.
        rewrite Hfence. cbn [app stripPrefix]. rewrite !N.eqb_refl.
        destruct (N.eqb 106 w) eqn:E; [| reflexivity].
        apply N.eqb_eq in E. subst w. discriminate.
  - unfold sanitize, startsWith.
    replace (stripPrefix (lit "```") body) with (@None jsstring).
    + reflexivity.
    + symmetry. rewrite <- (app_nil_r body). apply Hhead.
Qed.

(** X20. Fences. A text wrapped in Markdown fences, with or without the
    [json] tag (without it, some white space must follow the fence), comes
    out of the sanitizing step as the bare text, whatever white space
    surrounds it inside the fences, as long as the text itself neither
    starts with white space or a backquote nor ends with white space. A
    text that does not start with a fence is not touched. *)
Theorem sanitize_strips_fences
    (tagged : bool) (ws1 ws2 middle : jsstring) (first last : N) :
  Forall (fun c => isSpace c = true) ws1 ->
  Forall (fun c => isSpace c = true) ws2 ->
  isSpace first = false -> first <> 96%N -> isSpace last = false ->
  (tagged = false -> ws1 <> []) ->
  sanitize (fence tagged ws1 (first :: middle ++ [last]) ws2)
  = first :: middle ++ [last]
  /\ sanitize (first :: middle ++ [last]) = first :: middle ++ [last].
Proof. exact (sanitize_fenced tagged ws1 ws2 middle first last). Qed.

End ClassifierTexts.

Section ClassifierLabels.

Import Js Gemini.

Lemma sanitize_strips_fences_witness :
  sanitize (fence true [10%N] (123%N :: [] ++ [125%N]) [10%N])
  = 123%N :: [] ++ [125%N]
  /\ sanitize (123%N :: [] ++ [125%N]) = 123%N :: [] ++ [125%N].
Proof.
  apply (sanitize_strips_fences true [10%N] [10%N] [] 123%N 125%N).
  - repeat constructor.
  - repeat constructor.
  - reflexivity.
  - discriminate.
  - reflexivity.
  - discriminate.
Defined.

Lemma parseString_plain (label rest : jsstring) :
  Forall plain label ->
  JSON.parseString (label ++ 34%N :: rest) = Some (label, rest).
Proof.
  induction 1 as [| c label (Hq & Hb & Hc) Hlabel IH]; [reflexivity |].
  cbn [app JSON.parseString].
  apply N.eqb_neq in Hq. apply N.eqb_neq in Hb. rewrite Hq, Hb.
  assert (Hlow : N.ltb c 32 = false) by (apply N.ltb_ge; exact Hc).
  rewrite Hlow, IH. reflexivity.
Qed.

Lemma parse_payloadOf (label : jsstring) :
  Forall plain label ->
  JSON.parse (payloadOf label)
  = Normal (object [(lit "gesture", str label)]).
Proof.
  intro Hplain. unfold JSON.parse.
  assert (Hfuel : exists n, JSON.enough (payloadOf label) = S (S (S n))).
  { unfold JSON.enough, payloadOf. rewrite !length_app. cbn [List.length lit quoted app].
    eexists. cbn [Nat.mul Nat.add]. reflexivity. }
  destruct Hfuel as [n ->].
  replace (JSON.parseValue (S (S (S n))) (payloadOf label))
    with (JSON.Ok (object [(lit "gesture", str label)]) []);
    [reflexivity |].
  symmetry. unfold payloadOf, quoted.
  change (lit "{" ++ ([34%N] ++ lit "gesture" ++ [34%N]) ++ lit ": " ++ [34%N]
          ++ label ++ [34%N] ++ lit "}")
    with (123%N :: 34%N :: lit "gesture"
          ++ 34%N :: 58%N :: 32%N :: 34%N :: (label ++ 34%N :: [125%N])).
  cbn -[JSON.parseString lit].
  rewrite (parseString_plain (lit "gesture") _)
    by (repeat constructor; discriminate).
  cbn -[JSON.parseString lit].
  rewrite (parseString_plain label [125%N] Hplain).
  reflexivity.
Qed.

(** X21. The label is passed on. With a key set, whatever label the
    classifier puts in the [gesture] property (a JSON string without
    escapes) is the value returned, whether the text comes bare or between
    Markdown fences; so the result is FIST, OPEN or NONE exactly when the
    classifier says so. *)
Theorem detectHandGesture_passes_label
    (c : N) (key image label : jsstring) (tagged : bool) :
  Forall plain label ->
  detectHandGesture (Some (c :: key)) (answering (Some (payloadOf label))) image
  = Normal (str label)
  /\ detectHandGesture (Some (c :: key))
       (answering (Some (fence tagged [10%N] (payloadOf label) [10%N]))) image
     = Normal (str label).
Proof.
  intro Hplain.
  assert (Hshape : exists middle,
             payloadOf label = 123%N :: middle ++ [125%N]).
  { unfold payloadOf, quoted.
    exists (34%N :: lit "gesture" ++ 34%N :: 58%N :: 32%N :: 34%N :: label ++ [34%N]).
    cbn [app lit]. rewrite <- !app_assoc. reflexivity. }
  destruct Hshape as [middle Hshape].
  destruct (sanitize_fenced tagged [10%N] [10%N] middle 123%N 125%N)
    as [Hfenced Hbare];
    try (repeat constructor; fail); try reflexivity; try discriminate.
  rewrite <- Hshape in Hfenced, Hbare.
  assert (Hnonempty : forall text,
             text = payloadOf label \/ text = fence tagged [10%N] (payloadOf label) [10%N] ->
             orElse (Some text) (lit "{}") = text).
  { intros text [-> | ->]; [rewrite Hshape | unfold fence]; reflexivity. }
  unfold detectHandGesture, answering. cbv zeta.
  change (orElse (Some (c :: key)) []) with (c :: key). cbv beta iota.
  cbn [bind].
  rewrite (Hnonempty _ (or_introl eq_refl)), (Hnonempty _ (or_intror eq_refl)).
  rewrite Hfenced, Hbare, (parse_payloadOf label Hplain).
  split; reflexivity.
Qed.

Lemma detectHandGesture_passes_label_witness :
  detectHandGesture (Some (lit "key")) (answering (Some (payloadOf (lit "FIST"))))
                    someImage
  = Normal (str (lit "FIST"))
  /\ detectHandGesture (Some (lit "key"))
       (answering (Some (fence true [10%N] (payloadOf (lit "FIST")) [10%N])))
       someImage
     = Normal (str (lit "FIST")).
Proof.
  apply (detectHandGesture_passes_label 107%N (lit "ey") someImage (lit "FIST") true).
  repeat constructor; discriminate.
Defined.

(** The failures that give NONE, on a concrete classifier. *)
Lemma detectHandGesture_failures_are_NONE_witness :
  detectHandGesture someKey unreachable someImage
  = Normal (GestureType_value NONE).
Proof.
  destruct (detectHandGesture_failures_are_NONE unreachable someImage)
    as (_ & _ & Hthrow & _).
  apply (Hthrow someKey
           (mkError (lit "TypeError") (lit "Failed to fetch"))).
  reflexivity.
Defined.

End ClassifierLabels.

Section ClassifierResult.

Import Js Gemini.

(** X22. The promise of [detectHandGesture] is never rejected, and it
    invents nothing: it resolves to NONE, or the classifier answered, its
    sanitized text is JSON, and the value is the [gesture] property of
    what was parsed (undefined when there is none). *)
Theorem detectHandGesture_resolves
    (env_API_KEY : option jsstring)
    (generateContent : jsstring -> Completion (option jsstring))
    (base64Image : jsstring) :
  detectHandGesture env_API_KEY generateContent base64Image
  = Normal (GestureType_value NONE)
  \/ exists text result v,
      generateContent (removeDataUrlPrefix base64Image) = Normal text
      /\ JSON.parse (sanitize (orElse text (lit "{}"))) = Normal result
      /\ getProperty result "gesture" = Normal v
      /\ detectHandGesture env_API_KEY generateContent base64Image = Normal v.
Proof.
  unfold detectHandGesture.
  destruct (orElse env_API_KEY []); [left; reflexivity |].
  destruct (generateContent (removeDataUrlPrefix base64Image))
    as [text | e] eqn:Hcall; [| left; reflexivity].
  cbn [bind].
  destruct (JSON.parse (sanitize (orElse text (lit "{}"))))
    as [result | e] eqn:Hparse; [| left; reflexivity].
  cbn [bind].
  destruct (getProperty result "gesture") as [v | e] eqn:Hget;
    [| left; reflexivity].
  right. exists text, result, v. repeat split; assumption || reflexivity.
Qed.

End ClassifierResult.
